(** * Room lifecycle and peer signalling of the video-chat application

    A shallow embedding of
    - the rooms panel ([cleanupExpiredRooms], [createRoom], [joinRoom],
      [markAsBusy]),
    - the room card ([handleJoin], [getExpirationStatus]),
    - the video-room page ([joinRoom], [handleKickParticipant]),
    - the random-chat component ([handleMatchFound], [handleOffer],
      [handleAnswer], [handleIceCandidate], [skipPartner], [endChat]).

    Timestamps are milliseconds since the epoch (what [Date.getTime]
    returns), as integers.  The persistent store is the three tables the
    code reads and writes, as lists of rows; a query is a [filter], an
    [update ... eq ...] is a [map] that rewrites the matching rows.  Store
    calls themselves are taken to answer (network failures are outside the
    model); the row-count error of [.single()] is modelled.

    The peer connection belongs to the browser.  It is modelled by the
    calls the component makes on it, and the browser is a parameter that
    decides, from the calls made so far, which call it accepts; a
    rejected call is a rejected promise in the handler that awaits it. *)

From Stdlib Require Import List String Ascii ZArith Bool Lia.
Import ListNotations.

Open Scope string_scope.
Open Scope list_scope.
Open Scope Z_scope.

(* ================================================================== *)
(** * Part I: definitions *)
(* ================================================================== *)

(** ** JavaScript values used by the code *)

(** [a < b] on two JavaScript strings: lexicographic on code units, a
    proper prefix being smaller.  Connection identifiers are ASCII. *)
Fixpoint js_lt (a b : string) : bool :=
  match a, b with
  | _, EmptyString => false
  | EmptyString, String _ _ => true
  | String x a', String y b' =>
      match (N_of_ascii x ?= N_of_ascii y)%N with
      | Lt => true
      | Gt => false
      | Eq => js_lt a' b'
      end
  end.

(** Truthiness of a string value: the empty string is falsy. *)
Definition truthy (s : string) : bool := negb (s =? "")%string.

(** Truthiness of a [string | null] value. *)
Definition truthy_opt (s : option string) : bool :=
  match s with
  | Some v => truthy v
  | None => false
  end.

(** [a !== b] where [a] is a string and [b] is [string | undefined]. *)
Definition strict_neq (a : string) (b : option string) : bool :=
  match b with
  | Some v => negb (a =? v)%string
  | None => true
  end.

(** Payloads of the signalling messages. *)
Inductive SdpType : Type := SdpOffer | SdpAnswer.

Record SessionDescription : Type := mkSdp {
  sdp_type : SdpType;
  sdp : string
}.

Definition IceCandidate : Type := string.

(** What a handler leaves behind besides the state it returns. *)
Inductive SocketEvent : Type :=
| EvWaiting (deviceId : string)
| EvOffer (offer : SessionDescription) (to : string)
| EvAnswer (answer : SessionDescription) (to : string)
| EvIceCandidate (candidate : IceCandidate) (to : string)
| EvReport (reportedUser reason : string).

Inductive Effect : Type :=
| ToastError (msg : string)
| ToastSuccess (msg : string)
| ConsoleError (label : string)
| RouterPush (url : string)
| Emit (ev : SocketEvent)
| ServiceCleanup
| UnhandledRejection.

(** ** Persistent store *)

Inductive RoomStatus : Type := waiting | active | ended.

Inductive ParticipantStatus : Type := invited | joined | busy | kicked.

Record Room : Type := mkRoom {
  room_id : string;
  room_name : string;
  room_group_id : string;
  room_host_id : string;
  room_password : option string;
  room_status : RoomStatus;
  room_created_at : Z;
  room_ended_at : option Z;
  room_video_chat_url : string
}.

Record RoomParticipant : Type := mkParticipant {
  rp_room_id : string;
  rp_user_id : string;
  rp_status : ParticipantStatus;
  rp_joined_at : option Z
}.

Record RoomActivity : Type := mkActivity {
  ra_room_id : string;
  ra_last_active : option Z;
  ra_participant_count : Z
}.

Record DB : Type := mkDB {
  rooms : list Room;
  room_participants : list RoomParticipant;
  room_activity : list RoomActivity
}.

Definition RoomStatus_eqb (a b : RoomStatus) : bool :=
  match a, b with
  | waiting, waiting | active, active | ended, ended => true
  | _, _ => false
  end.

Definition ParticipantStatus_eqb (a b : ParticipantStatus) : bool :=
  match a, b with
  | invited, invited | joined, joined | busy, busy | kicked, kicked => true
  | _, _ => false
  end.

(** [.single()]: the one row of the result, an error unless there is
    exactly one. *)
Definition single {A : Type} (rows : list A) : option A :=
  match rows with
  | [r] => Some r
  | _ => None
  end.

(** The message of the error [.single()] reports. *)
Definition single_error_message : string :=
  "JSON object requested, multiple (or no) rows returned".

(** [.eq('user_id', u)] with [u : string | null]: a null never matches. *)
Definition eq_user (u : option string) (col : string) : bool :=
  match u with
  | Some v => (col =? v)%string
  | None => false
  end.

Definition set_room_status (st : RoomStatus) (r : Room) : Room :=
  mkRoom (room_id r) (room_name r) (room_group_id r) (room_host_id r)
         (room_password r) st (room_created_at r) (room_ended_at r)
         (room_video_chat_url r).

Definition set_room_ended (now : Z) (r : Room) : Room :=
  mkRoom (room_id r) (room_name r) (room_group_id r) (room_host_id r)
         (room_password r) ended (room_created_at r) (Some now)
         (room_video_chat_url r).

Definition set_rp_status (st : ParticipantStatus) (p : RoomParticipant)
  : RoomParticipant :=
  mkParticipant (rp_room_id p) (rp_user_id p) st (rp_joined_at p).

Definition set_rp_joined (now : Z) (p : RoomParticipant) : RoomParticipant :=
  mkParticipant (rp_room_id p) (rp_user_id p) joined (Some now).

(** [from('rooms').update(f).eq('id', rid)] *)
Definition update_rooms (f : Room -> Room) (rid : string) (db : DB) : DB :=
  mkDB (map (fun r => if (room_id r =? rid)%string then f r else r) (rooms db))
       (room_participants db) (room_activity db).

(** [from('room_participants').update(f).eq('room_id', rid).eq('user_id', u)] *)
Definition update_participants (f : RoomParticipant -> RoomParticipant)
    (rid : string) (u : option string) (db : DB) : DB :=
  mkDB (rooms db)
       (map (fun p => if (rp_room_id p =? rid)%string && eq_user u (rp_user_id p)
                      then f p else p)
            (room_participants db))
       (room_activity db).

(** ** Rooms panel *)

(** One turn of the loop of [cleanupExpiredRooms] over [roomsToExpire]. *)
Definition expireRoom (now : Z) (db : DB) (room : Room) : DB :=
  let participants :=
    filter (fun p => (rp_room_id p =? room_id room)%string
                     && ParticipantStatus_eqb (rp_status p) joined)
           (room_participants db) in
  if (List.length participants <=? 1)%nat then
    let lastActivity :=
      single (filter (fun a => (ra_room_id a =? room_id room)%string)
                     (room_activity db)) in
    let lastActiveTime :=
      match lastActivity with
      | Some a =>
          match ra_last_active a with
          | Some t => t
          | None => room_created_at room
          end
      | None => room_created_at room
      end in
    let fiveMinutesAgo := now - 5 * 60000 in
    if lastActiveTime <? fiveMinutesAgo
    then update_rooms (set_room_ended now) (room_id room) db
    else db
  else db.

(** The rows the first query of [cleanupExpiredRooms] returns. *)
Definition roomsToExpire (now : Z) (db : DB) : list Room :=
  filter (fun r => (RoomStatus_eqb (room_status r) waiting
                    || RoomStatus_eqb (room_status r) active)
                   && (room_created_at r <? now - 10 * 60000))
         (rooms db).

Definition cleanupExpiredRooms (now : Z) (db : DB) : DB :=
  fold_left (expireRoom now) (roomsToExpire now db) db.

Definition createRoom (currentUserId : option string)
    (selectedGroup roomName roomPassword : string)
    (roomId : string) (now : Z) (db : DB) : DB * list Effect :=
  if negb (truthy_opt currentUserId) || negb (truthy selectedGroup)
     || negb (truthy roomName)
  then (db, [])
  else
    match currentUserId with
    | None => (db, [])
    | Some uid =>
        let room :=
          mkRoom roomId roomName selectedGroup uid
                 (if truthy roomPassword then Some roomPassword else None)
                 waiting now None ("/video-chat/" ++ roomId)%string in
        (mkDB (rooms db ++ [room])
              (room_participants db ++ [mkParticipant roomId uid joined (Some now)])
              (room_activity db ++ [mkActivity roomId (Some now) 1]),
         [ToastSuccess "Room created successfully"])
    end.

(** [joinRoom] of the rooms panel. *)
Definition joinRoom (currentUserId : option string) (roomId : string)
    (password : option string) (db : DB) : DB * list Effect :=
  match single (filter (fun r => (room_id r =? roomId)%string) (rooms db)) with
  | None =>
      (db, [ConsoleError "Error joining room:"; ToastError single_error_message])
  | Some room =>
      if match room_password room with
         | Some pw => truthy pw && strict_neq pw password
         | None => false
         end
      then (db, [ConsoleError "Error joining room:";
                 ToastError "Incorrect password"])
      else (update_participants (set_rp_status joined) roomId currentUserId db,
            [RouterPush (room_video_chat_url room)])
  end.

Definition markAsBusy (currentUserId : option string) (roomId : string)
    (db : DB) : DB * list Effect :=
  (update_participants (set_rp_status busy) roomId currentUserId db,
   [ToastSuccess "Marked as busy"]).

(** ** Room card *)

(** The [room] prop of a card: the snapshot the panel rendered. *)
Record CardRoom : Type := mkCard {
  card_id : string;
  card_participant_count : Z;
  card_password : option string;
  card_status : RoomStatus;
  card_created_at : Z;
  card_last_active : option Z
}.

Record CardState : Type := mkCardState {
  showPasswordModal : bool;
  card_input_password : string
}.

(** [handleJoin] of the card, with [onJoin] bound to the panel's
    [joinRoom] as the panel renders it. *)
Definition handleJoin (room : CardRoom) (currentUserId : option string)
    (st : CardState) (db : DB) : CardState * DB * list Effect :=
  if negb (truthy_opt currentUserId) then
    (st, db, [ToastError "Please sign in to join the room"])
  else if RoomStatus_eqb (card_status room) ended then
    (st, db, [ToastError "This room has ended"])
  else if truthy_opt (card_password room)
          && negb (truthy (card_input_password st)) then
    (mkCardState true (card_input_password st), db, [])
  else
    let '(db', out) :=
      joinRoom currentUserId (card_id room) (Some (card_input_password st)) db in
    (mkCardState false "", db', out).

(** [getExpirationStatus] of the card.  The code divides the elapsed
    milliseconds by 60000 and compares with 10, 5 and 8 minutes; on
    integers of milliseconds that is the comparison below. *)
Definition getExpirationStatus (now : Z) (room : CardRoom) : option string :=
  let createdAt := card_created_at room in
  let lastActive :=
    match card_last_active room with
    | Some t => t
    | None => createdAt
    end in
  let msSinceCreation := now - createdAt in
  let msSinceLastActive := now - lastActive in
  if 10 * 60000 <=? msSinceCreation then Some "Expired (>10min)"
  else if (card_participant_count room <=? 1)
          && (5 * 60000 <=? msSinceLastActive) then Some "Expired (inactive)"
  else if 8 * 60000 <=? msSinceCreation then Some "Expires soon"
  else None.

(** ** Video-room page *)

(** [joinRoom] of the page [/video-chat/[roomId]]: [inl] is the state
    of the store after the updates, [inr] the message of the error the
    function throws. *)
Definition pageJoinRoom (user : option string) (roomId : string) (now : Z)
    (db : DB) : DB + string :=
  match user with
  | None => inr "Please sign in to join the room"
  | Some uid =>
      match single (filter (fun p => (rp_room_id p =? roomId)%string
                                     && (rp_user_id p =? uid)%string)
                           (room_participants db)) with
      | None => inr "You do not have access to this room"
      | Some _ =>
          let db1 := update_rooms (set_room_status active) roomId db in
          inl (update_participants (set_rp_joined now) roomId (Some uid) db1)
      end
  end.

Definition handleKickParticipant (isHost : bool) (roomId userId : string)
    (db : DB) : DB * list Effect :=
  if negb isHost then (db, [])
  else (update_participants (set_rp_status kicked) roomId (Some userId) db,
        [ToastSuccess "Participant removed from room"]).

(** ** Random chat: the transport *)

Definition Track : Type := string.
Definition MediaStream : Type := list Track.

(** The methods the component calls on its [RTCPeerConnection]. *)
Inductive PcCall : Type :=
| CallAddTrack (t : Track)
| CallCreateOffer
| CallCreateAnswer
| CallSetLocalDescription (d : SessionDescription)
| CallSetRemoteDescription (d : SessionDescription)
| CallAddIceCandidate (c : IceCandidate)
| CallClose.

(** A peer connection is what the component did to it: the calls in the
    order they were made, each with whether the browser accepted it, and
    the partner its [onicecandidate] callback sends to. *)
Record RTCPeerConnection : Type := mkPc {
  pc_signal_to : string;
  pc_calls : list (PcCall * bool)
}.

Definition record_call (c : PcCall) (ok : bool) (pc : RTCPeerConnection)
  : RTCPeerConnection :=
  mkPc (pc_signal_to pc) (pc_calls pc ++ [(c, ok)]).

(** The browser decides the outcome of every call from the history of
    the connection; the handlers are written against any browser. *)
Record Browser : Type := mkBrowser {
  construct_ok : bool;
  addTrack_ok : RTCPeerConnection -> Track -> bool;
  createOffer_result : RTCPeerConnection -> option SessionDescription;
  createAnswer_result :
    RTCPeerConnection -> option (option SessionDescription);
  setLocalDescription_ok : RTCPeerConnection -> SessionDescription -> bool;
  setRemoteDescription_ok : RTCPeerConnection -> SessionDescription -> bool;
  addIceCandidate_ok : RTCPeerConnection -> IceCandidate -> bool
}.

(** The remote description in force: the last one the browser accepted. *)
Definition remoteDescription (pc : RTCPeerConnection)
  : option SessionDescription :=
  fold_left (fun acc e =>
               match e with
               | (CallSetRemoteDescription d, true) => Some d
               | _ => acc
               end)
            (pc_calls pc) None.

(** The remote candidates the browser accepted, in order. *)
Definition appliedCandidates (pc : RTCPeerConnection) : list IceCandidate :=
  flat_map (fun e =>
              match e with
              | (CallAddIceCandidate c, true) => [c]
              | _ => []
              end)
           (pc_calls pc).

(** The candidates handed to [addIceCandidate], accepted or not. *)
Definition offeredCandidates (calls : list (PcCall * bool))
  : list IceCandidate :=
  flat_map (fun e =>
              match e with
              | (CallAddIceCandidate c, _) => [c]
              | _ => []
              end)
           calls.

(** ** Random chat: asynchronous code

    A handler body runs against the connection and the effects emitted
    so far; an [await] of a rejected promise abandons the rest of the
    body.  A handler is run to its end before the next event. *)

Inductive Completion (A : Type) : Type :=
| Resolved (a : A)
| Rejected.

Arguments Resolved {A} a.
Arguments Rejected {A}.

Definition World : Type := (RTCPeerConnection * list Effect)%type.

Definition Async (A : Type) : Type := World -> World * Completion A.

Definition ret {A : Type} (a : A) : Async A := fun w => (w, Resolved a).

Definition bind {A B : Type} (m : Async A) (k : A -> Async B) : Async B :=
  fun w =>
    match m w with
    | (w', Resolved a) => k a w'
    | (w', Rejected) => (w', Rejected)
    end.

Notation "x <- m ;; k" := (bind m (fun x => k))
  (at level 61, m at next level, right associativity).
Notation "m ;;; k" := (bind m (fun _ => k))
  (at level 61, right associativity).

Definition perform (e : Effect) : Async unit :=
  fun w => ((fst w, snd w ++ [e]), Resolved tt).

Definition invoke (c : PcCall) (ok : bool) : Async unit :=
  fun w => ((record_call c ok (fst w), snd w),
            if ok then Resolved tt else Rejected).

Section Transport.

Variable browser : Browser.

Definition pcAddTrack (t : Track) : Async unit :=
  fun w => invoke (CallAddTrack t) (addTrack_ok browser (fst w) t) w.

Definition pcCreateOffer : Async SessionDescription :=
  fun w =>
    match createOffer_result browser (fst w) with
    | Some d => ((record_call CallCreateOffer true (fst w), snd w), Resolved d)
    | None => ((record_call CallCreateOffer false (fst w), snd w), Rejected)
    end.

Definition pcCreateAnswer : Async (option SessionDescription) :=
  fun w =>
    match createAnswer_result browser (fst w) with
    | Some a => ((record_call CallCreateAnswer true (fst w), snd w), Resolved a)
    | None => ((record_call CallCreateAnswer false (fst w), snd w), Rejected)
    end.

Definition pcSetLocalDescription (d : SessionDescription) : Async unit :=
  fun w =>
    invoke (CallSetLocalDescription d)
           (setLocalDescription_ok browser (fst w) d) w.

Definition pcSetRemoteDescription (d : SessionDescription) : Async unit :=
  fun w =>
    invoke (CallSetRemoteDescription d)
           (setRemoteDescription_ok browser (fst w) d) w.

Definition pcAddIceCandidate (c : IceCandidate) : Async unit :=
  fun w =>
    invoke (CallAddIceCandidate c) (addIceCandidate_ok browser (fst w) c) w.

(** [tracks.forEach(track => pc.addTrack(track, stream))] *)
Fixpoint addTracks (tracks : list Track) : Async unit :=
  match tracks with
  | [] => ret tt
  | t :: rest => pcAddTrack t ;;; addTracks rest
  end.

End Transport.

(** ** Random chat: the component *)

(** The state and refs of [VideoChat] that the signalling code touches.
    [socket_id] is [socketRef.current?.id]; the socket itself exists from
    mount on. *)
Record VideoChat : Type := mkVideoChat {
  socket_id : option string;
  partnerId : option string;
  isMatching : bool;
  isWaiting : bool;
  isChatting : bool;
  localStream : option MediaStream;
  remoteStream : option MediaStream;
  localStreamRef : option MediaStream;
  peerConnectionRef : option RTCPeerConnection;
  messages : list string
}.

Definition setPartnerId (v : option string) (s : VideoChat) : VideoChat :=
  mkVideoChat (socket_id s) v (isMatching s) (isWaiting s) (isChatting s)
    (localStream s) (remoteStream s) (localStreamRef s) (peerConnectionRef s)
    (messages s).

Definition setIsMatching (v : bool) (s : VideoChat) : VideoChat :=
  mkVideoChat (socket_id s) (partnerId s) v (isWaiting s) (isChatting s)
    (localStream s) (remoteStream s) (localStreamRef s) (peerConnectionRef s)
    (messages s).

Definition setIsChatting (v : bool) (s : VideoChat) : VideoChat :=
  mkVideoChat (socket_id s) (partnerId s) (isMatching s) (isWaiting s) v
    (localStream s) (remoteStream s) (localStreamRef s) (peerConnectionRef s)
    (messages s).

Definition setLocalStream (v : option MediaStream) (s : VideoChat)
  : VideoChat :=
  mkVideoChat (socket_id s) (partnerId s) (isMatching s) (isWaiting s)
    (isChatting s) v (remoteStream s) (localStreamRef s) (peerConnectionRef s)
    (messages s).

Definition setRemoteStream (v : option MediaStream) (s : VideoChat)
  : VideoChat :=
  mkVideoChat (socket_id s) (partnerId s) (isMatching s) (isWaiting s)
    (isChatting s) (localStream s) v (localStreamRef s) (peerConnectionRef s)
    (messages s).

Definition setMessages (v : list string) (s : VideoChat) : VideoChat :=
  mkVideoChat (socket_id s) (partnerId s) (isMatching s) (isWaiting s)
    (isChatting s) (localStream s) (remoteStream s) (localStreamRef s)
    (peerConnectionRef s) v.

Definition setPeerConnection (v : option RTCPeerConnection) (s : VideoChat)
  : VideoChat :=
  mkVideoChat (socket_id s) (partnerId s) (isMatching s) (isWaiting s)
    (isChatting s) (localStream s) (remoteStream s) (localStreamRef s) v
    (messages s).

(** The relayed messages; [from] is what the relay injected. *)
Inductive Signal : Type :=
| SigOffer (offer : SessionDescription) (from : string)
| SigAnswer (answer : SessionDescription) (from : string)
| SigIceCandidate (candidate : IceCandidate) (from : string).

Definition signal_from (m : Signal) : string :=
  match m with
  | SigOffer _ f | SigAnswer _ f | SigIceCandidate _ f => f
  end.

(** What the [catch] of [handleMatchFound] does. *)
Definition matchFoundCaught : list Effect :=
  [ConsoleError "Error in handleMatchFound:";
   ToastError "Failed to establish peer connection"].

Section Component.

Variable browser : Browser.

(** The body of the [try] of [handleMatchFound] once the connection
    exists. *)
Definition setupConnection (me partner : string)
    (stream : option MediaStream) : Async unit :=
  match stream with
  | Some tracks => addTracks browser tracks
  | None => ret tt
  end ;;;
  if js_lt me partner then
    offer <- pcCreateOffer browser ;;
    pcSetLocalDescription browser offer ;;;
    perform (Emit (EvOffer offer partner))
  else ret tt.

Definition handleMatchFound (s : VideoChat) (partner : string)
  : VideoChat * list Effect :=
  match socket_id s with
  | None => (s, [])
  | Some me =>
      if negb (truthy me) then (s, [])
      else
        let s1 :=
          setIsChatting true (setIsMatching false
            (setPartnerId (Some partner) s)) in
        if construct_ok browser then
          match setupConnection me partner (localStreamRef s)
                                (mkPc partner [], []) with
          | ((pc, out), Resolved _) => (setPeerConnection (Some pc) s1, out)
          | ((pc, out), Rejected) =>
              (setPeerConnection (Some pc) s1, out ++ matchFoundCaught)
          end
        else (s1, matchFoundCaught)
  end.

(** A registered socket handler: its promise is nobody's to catch. *)
Definition runHandler (s : VideoChat) (pc : RTCPeerConnection)
    (body : Async unit) : VideoChat * list Effect :=
  match body (pc, []) with
  | ((pc', out), Resolved _) => (setPeerConnection (Some pc') s, out)
  | ((pc', out), Rejected) =>
      (setPeerConnection (Some pc') s, out ++ [UnhandledRejection])
  end.

Definition handleOffer (s : VideoChat) (offer : SessionDescription)
    (from : string) : VideoChat * list Effect :=
  match peerConnectionRef s with
  | None => (s, [])
  | Some pc =>
      runHandler s pc
        (pcSetRemoteDescription browser offer ;;;
         answer <- pcCreateAnswer browser ;;
         match answer with
         | None => perform (ConsoleError "Failed to create answer")
         | Some a =>
             pcSetLocalDescription browser a ;;;
             perform (Emit (EvAnswer a from))
         end)
  end.

Definition handleAnswer (s : VideoChat) (answer : SessionDescription)
  : VideoChat * list Effect :=
  match peerConnectionRef s with
  | None => (s, [])
  | Some pc => runHandler s pc (pcSetRemoteDescription browser answer)
  end.

Definition handleIceCandidate (s : VideoChat) (candidate : IceCandidate)
  : VideoChat * list Effect :=
  match peerConnectionRef s with
  | None => (s, [])
  | Some pc => runHandler s pc (pcAddIceCandidate browser candidate)
  end.

(** The three [socket.on] registrations for relayed messages. *)
Definition onSignal (s : VideoChat) (m : Signal) : VideoChat * list Effect :=
  match m with
  | SigOffer offer from => handleOffer s offer from
  | SigAnswer answer _ => handleAnswer s answer
  | SigIceCandidate candidate _ => handleIceCandidate s candidate
  end.

(** Relayed messages taken one after the other. *)
Fixpoint onSignals (s : VideoChat) (ms : list Signal)
  : VideoChat * list Effect :=
  match ms with
  | [] => (s, [])
  | m :: rest =>
      let '(s1, out1) := onSignal s m in
      let '(s2, out2) := onSignals s1 rest in
      (s2, out1 ++ out2)
  end.

End Component.

Definition skipPartner (deviceId : string) (s : VideoChat)
  : VideoChat * list Effect :=
  (setMessages [] (setPartnerId None (setRemoteStream None s)),
   [ServiceCleanup; Emit (EvWaiting deviceId)]).

Definition reportUser (deviceId : string) (s : VideoChat)
  : VideoChat * list Effect :=
  match partnerId s with
  | None => (s, [])
  | Some p =>
      if negb (truthy p) then (s, [])
      else
        let '(s', out) := skipPartner deviceId s in
        (s', [Emit (EvReport p "inappropriate behavior");
              ToastSuccess "User reported. Finding new partner..."] ++ out)
  end.

(** [cleanup]: close the connection and forget it (the closed
    connection is no longer reachable, so the call leaves no trace). *)
Definition cleanup (s : VideoChat) : VideoChat := setPeerConnection None s.

(** [endChat]; stopping the tracks of the two streams is not traced. *)
Definition endChat (s : VideoChat) : VideoChat * list Effect :=
  (cleanup
     (setIsChatting false (setIsMatching false (setMessages []
        (setPartnerId None (setRemoteStream None (setLocalStream None s)))))),
   [ServiceCleanup]).

(** Idle in the component's terms, as [endChat] leaves it: no partner,
    neither matching nor chatting, no peer connection. *)
Definition isIdle (s : VideoChat) : bool :=
  match partnerId s, peerConnectionRef s with
  | None, None => negb (isMatching s) && negb (isChatting s)
  | _, _ => false
  end.

Definition emitsOffer (out : list Effect) : bool :=
  existsb (fun e => match e with Emit (EvOffer _ _) => true | _ => false end)
          out.

Definition emitsAnswer (out : list Effect) : bool :=
  existsb (fun e => match e with Emit (EvAnswer _ _) => true | _ => false end)
          out.

Definition showsError (out : list Effect) : bool :=
  existsb (fun e => match e with ToastError _ => true | _ => false end) out.

Definition rejectsUnhandled (out : list Effect) : bool :=
  existsb (fun e => match e with UnhandledRejection => true | _ => false end)
          out.

(** The calls a browser answers without error during set-up. *)
Definition cooperative (b : Browser) : Prop :=
  construct_ok b = true
  /\ (forall pc t, addTrack_ok b pc t = true)
  /\ (forall pc, createOffer_result b pc <> None)
  /\ (forall pc d, setLocalDescription_ok b pc d = true).


(** The call a relayed message starts with. *)
Definition firstCall (m : Signal) : PcCall :=
  match m with
  | SigOffer offer _ => CallSetRemoteDescription offer
  | SigAnswer answer _ => CallSetRemoteDescription answer
  | SigIceCandidate candidate _ => CallAddIceCandidate candidate
  end.

(** The same message as the relay would tag it for another sender. *)
Definition sentBy (f : string) (m : Signal) : Signal :=
  match m with
  | SigOffer offer _ => SigOffer offer f
  | SigAnswer answer _ => SigAnswer answer f
  | SigIceCandidate candidate _ => SigIceCandidate candidate f
  end.

(** The candidates among relayed messages, in receipt order. *)
Definition candidatesOf (ms : list Signal) : list IceCandidate :=
  flat_map (fun m =>
              match m with
              | SigIceCandidate c _ => [c]
              | _ => []
              end)
           ms.

(** The calls made on the connection of a session, if it has one. *)
Definition callsOf (s : VideoChat) : option (list (PcCall * bool)) :=
  option_map pc_calls (peerConnectionRef s).

(** ** The sweep in closed form *)

(** The two nested tests of [expireRoom], on the tables they read. *)
Definition idleAlone (now : Z) (participants : list RoomParticipant)
    (activity : list RoomActivity) (room : Room) : bool :=
  (List.length
     (filter (fun p => (rp_room_id p =? room_id room)%string
                       && ParticipantStatus_eqb (rp_status p) joined)
             participants) <=? 1)%nat
  && (match single (filter (fun a => (ra_room_id a =? room_id room)%string)
                           activity) with
      | Some a =>
          match ra_last_active a with
          | Some t => t
          | None => room_created_at room
          end
      | None => room_created_at room
      end <? now - 5 * 60000).

(** Whether the sweep at [now] ends the rows with the id of [r]. *)
Definition sweptIds (now : Z) (db : DB) (l : list Room) (r : Room) : bool :=
  existsb (fun x => (room_id r =? room_id x)%string
                    && idleAlone now (room_participants db) (room_activity db) x)
          l.

(** Forward order of the room status. *)
Definition status_rank (st : RoomStatus) : nat :=
  match st with
  | waiting => 0
  | active => 1
  | ended => 2
  end.

(** ** Browsers and scenes used in the examples *)

(** A browser that follows the WebRTC rules the handlers can run into:
    a description with an empty body is malformed, an answer needs a
    remote offer, a remote candidate needs a remote description. *)
Definition referenceBrowser : Browser :=
  mkBrowser true
    (fun _ _ => true)
    (fun _ => Some (mkSdp SdpOffer "v=0 o=offer"))
    (fun pc =>
       match remoteDescription pc with
       | Some (mkSdp SdpOffer _) => Some (Some (mkSdp SdpAnswer "v=0 o=answer"))
       | _ => None
       end)
    (fun _ _ => true)
    (fun _ d => truthy (sdp d))
    (fun pc _ =>
       match remoteDescription pc with
       | Some _ => true
       | None => false
       end).


Definition camera : MediaStream := ["audio"; "video"]%string.

(** A client that pressed start: camera acquired, waiting for a match. *)
Definition searching (id : string) : VideoChat :=
  mkVideoChat (Some id) None false true false None None (Some camera) None [].

(** "abc" was matched with "xyz", skipped, and was matched with "def". *)
Definition afterSkip : VideoChat :=
  fst (skipPartner "default"
         (fst (handleMatchFound referenceBrowser (searching "abc") "xyz"))).

Definition rematched : VideoChat :=
  fst (handleMatchFound referenceBrowser afterSkip "def").

Definition staleAnswer : Signal :=
  SigAnswer (mkSdp SdpAnswer "v=0 o=answer-of-xyz") "xyz".

(** "xyz" was matched with "abc" and waits for the offer of "abc". *)
Definition answerer : VideoChat :=
  fst (handleMatchFound referenceBrowser (searching "xyz") "abc").

Definition offerOfAbc : SessionDescription := mkSdp SdpOffer "v=0 o=offer".

Definition minute : Z := 60000.

(** A room of three, eleven minutes old, active a minute ago. *)
Definition busyRoom : Room :=
  mkRoom "r1" "standup" "g1" "alice" None active 0 None "/video-chat/r1".

Definition busyDb : DB :=
  mkDB [busyRoom]
       [mkParticipant "r1" "alice" joined (Some 0);
        mkParticipant "r1" "bob" joined (Some minute);
        mkParticipant "r1" "carol" joined (Some (2 * minute))]
       [mkActivity "r1" (Some (10 * minute)) 3].

Definition busyCard : CardRoom :=
  mkCard "r1" 3 None active 0 (Some (10 * minute)).

(** A room only the host ever joined, six minutes old, no activity since. *)
Definition lonelyRoom : Room :=
  mkRoom "r2" "office hours" "g1" "alice" None waiting 0 None "/video-chat/r2".

Definition lonelyDb : DB :=
  mkDB [lonelyRoom]
       [mkParticipant "r2" "alice" joined (Some 0)]
       [mkActivity "r2" (Some 0) 1].

Definition lonelyCard : CardRoom := mkCard "r2" 1 None waiting 0 (Some 0).

(** A room the sweep has ended, to which bob was invited. *)
Definition endedRoom : Room :=
  mkRoom "r3" "retro" "g1" "alice" None ended 0 (Some (12 * minute))
         "/video-chat/r3".

Definition endedDb : DB :=
  mkDB [endedRoom]
       [mkParticipant "r3" "alice" joined (Some 0);
        mkParticipant "r3" "bob" invited None]
       [mkActivity "r3" (Some 0) 1].

(** The card of that room as rendered before the sweep ended it. *)
Definition staleCard : CardRoom := mkCard "r3" 1 None waiting 0 (Some 0).

(** The card of that room as rendered after. *)
Definition freshCard : CardRoom := mkCard "r3" 1 None ended 0 (Some 0).

(** A room with a password. *)
Definition lockedRoom : Room :=
  mkRoom "r4" "board" "g1" "alice" (Some "s3cret") waiting 0 None
         "/video-chat/r4".

Definition lockedDb : DB :=
  mkDB [lockedRoom]
       [mkParticipant "r4" "alice" joined (Some 0);
        mkParticipant "r4" "bob" invited None]
       [mkActivity "r4" (Some 0) 1].

Definition lockedCard : CardRoom :=
  mkCard "r4" 1 (Some "s3cret") waiting 0 (Some 0).

(** ** Observations on the store *)

(** The rows of [rooms] with a given id, as [.eq('id', rid)] selects
    them. *)
Definition roomsWithId (rid : string) (db : DB) : list Room :=
  filter (fun r => (room_id r =? rid)%string) (rooms db).

(** The rows of [room_participants] of a user in a room. *)
Definition rowsOf (rid uid : string) (db : DB) : list RoomParticipant :=
  filter (fun p => (rp_room_id p =? rid)%string && (rp_user_id p =? uid)%string)
         (room_participants db).

(** The joined participants of a room, as the sweep counts them. *)
Definition joinedIn (rid : string) (ps : list RoomParticipant)
  : list RoomParticipant :=
  filter (fun p => (rp_room_id p =? rid)%string
                   && ParticipantStatus_eqb (rp_status p) joined) ps.

(** The time the sweep takes as the last activity of a room. *)
Definition lastActiveTime (activity : list RoomActivity) (room : Room) : Z :=
  match single (filter (fun a => (ra_room_id a =? room_id room)%string)
                       activity) with
  | Some a =>
      match ra_last_active a with
      | Some t => t
      | None => room_created_at room
      end
  | None => room_created_at room
  end.

(** The three conditions under which the sweep at [now] ends [r]. *)
Definition expires (now : Z) (db : DB) (r : Room) : bool :=
  (RoomStatus_eqb (room_status r) waiting
   || RoomStatus_eqb (room_status r) active)
  && (room_created_at r <? now - 10 * 60000)
  && ((List.length (joinedIn (room_id r) (room_participants db)) <=? 1)%nat
      && (lastActiveTime (room_activity db) r <? now - 5 * 60000)).

(** The row [createRoom] inserts into [rooms]. *)
Definition createdRoom (uid selectedGroup roomName roomPassword roomId : string)
    (now : Z) : Room :=
  mkRoom roomId roomName selectedGroup uid
         (if truthy roomPassword then Some roomPassword else None)
         waiting now None ("/video-chat/" ++ roomId)%string.

(** No table has a row for the room id. *)
Definition freshRoomId (rid : string) (db : DB) : Prop :=
  roomsWithId rid db = []
  /\ filter (fun p => (rp_room_id p =? rid)%string) (room_participants db) = []
  /\ filter (fun a => (ra_room_id a =? rid)%string) (room_activity db) = [].

(** The two labels of the card that say the room has expired. *)
Definition isExpiredLabel (label : option string) : bool :=
  match label with
  | Some l => (l =? "Expired (>10min)")%string
              || (l =? "Expired (inactive)")%string
  | None => false
  end.

(** ** Video-room page: the participant list *)

(** An entry of the list of the page.  The media stream and the audio
    level of an entry, which the handlers below only copy, are left
    out. *)
Record Participant : Type := mkPart {
  part_id : string;
  part_username : string;
  part_display_name : option string;
  part_avatar_url : option string;
  part_isSpeaking : bool;
  part_isAudioOn : bool;
  part_isVideoOn : bool
}.

Definition setAudioOn (v : bool) (p : Participant) : Participant :=
  mkPart (part_id p) (part_username p) (part_display_name p)
         (part_avatar_url p) (part_isSpeaking p) v (part_isVideoOn p).

Definition handleMuteParticipant (isHost : bool) (userId : string)
    (participants : list Participant) : list Participant * list Effect :=
  if negb isHost then (participants, [])
  else
    match find (fun p => (part_id p =? userId)%string) participants with
    | None => (participants, [])
    | Some participant =>
        let newAudioState := negb (part_isAudioOn participant) in
        (map (fun p => if (part_id p =? userId)%string
                       then setAudioOn newAudioState p else p)
             participants,
         [ToastSuccess (if newAudioState then "Participant unmuted"
                        else "Participant muted")])
    end.

(** [getGridColumns], on the length of the participant list. *)
Definition getGridColumns (count : Z) : string :=
  if count <=? 2 then "grid-cols-2"
  else if count <=? 4 then "grid-cols-2"
  else if count <=? 6 then "grid-cols-3"
  else if count <=? 9 then "grid-cols-3"
  else "grid-cols-4".

(** The number of columns a grid class stands for. *)
Definition columnsOf (cls : string) : Z :=
  if (cls =? "grid-cols-2")%string then 2
  else if (cls =? "grid-cols-3")%string then 3
  else if (cls =? "grid-cols-4")%string then 4
  else 1.

(** ** Friends and notifications *)

Inductive FriendStatus : Type := pending | accepted | blocked.

Inductive NotificationType : Type := friend_request | room_invite | message_note.

(** A row of [friends]; the generated [id] and [created_at], which the
    code below never reads, are left out. *)
Record Friend : Type := mkFriend {
  f_user_id : string;
  f_friend_id : string;
  f_status : FriendStatus
}.

Record NotificationRow : Type := mkNote {
  n_id : string;
  n_user_id : string;
  n_type : NotificationType;
  n_content : string;
  n_from_user_id : string;
  n_read : bool;
  n_room_id : option string
}.

Record Social : Type := mkSocial {
  friends : list Friend;
  notifications : list NotificationRow
}.

(** The signed-in user as the friend code reads it. *)
Record AuthUser : Type := mkUser {
  user_id : string;
  user_username : string
}.

(** The rows of [friends] between two users, in either direction: the
    [or(and(...),and(...))] filter of [sendFriendRequest]. *)
Definition linking (a b : string) (fs : list Friend) : list Friend :=
  filter (fun f => ((f_user_id f =? a)%string && (f_friend_id f =? b)%string)
                   || ((f_user_id f =? b)%string && (f_friend_id f =? a)%string))
         fs.

Definition set_f_status (st : FriendStatus) (f : Friend) : Friend :=
  mkFriend (f_user_id f) (f_friend_id f) st.

Definition set_n_read (n : NotificationRow) : NotificationRow :=
  mkNote (n_id n) (n_user_id n) (n_type n) (n_content n) (n_from_user_id n)
         true (n_room_id n).

(** [sendFriendRequest] of the chat component; [newId] is the id the
    store gives the inserted notification. *)
Definition sendFriendRequest (user : option AuthUser) (userId : string)
    (newId : string) (db : Social) : Social * list Effect :=
  match user with
  | None => (db, [])
  | Some u =>
      match single (linking (user_id u) userId (friends db)) with
      | Some _ =>
          (db, [ToastError
                  "Friend request already sent or you are already friends"])
      | None =>
          (mkSocial
             (friends db ++ [mkFriend (user_id u) userId pending])
             (notifications db
              ++ [mkNote newId userId friend_request
                         (user_username u ++ " wants to be friends")%string
                         (user_id u) false None]),
           [ToastSuccess "Friend request sent!"])
      end
  end.

(** [handleFriendRequest] of the chat component. *)
Definition handleFriendRequest (user : option AuthUser) (userId : string)
    (accept : bool) (db : Social) : Social * list Effect :=
  match user with
  | None => (db, [])
  | Some u =>
      let '(fs, out) :=
        if accept then
          (map (fun f => if (f_user_id f =? userId)%string
                            && (f_friend_id f =? user_id u)%string
                         then set_f_status accepted f else f)
               (friends db)
           ++ [mkFriend (user_id u) userId accepted],
           [ToastSuccess "Friend request accepted!"])
        else (friends db, []) in
      (mkSocial fs
         (map (fun n => if (n_from_user_id n =? userId)%string
                           && (n_user_id n =? user_id u)%string
                        then set_n_read n else n)
              (notifications db)),
       out)
  end.

(** [handleRoomInvite] of the notification bell, on the room store; the
    notification it marks as read and the list it fetches again live in
    the other store and do not touch this one. *)
Definition handleRoomInvite (userId : option string)
    (notification : NotificationRow) (join : bool) (db : DB)
  : DB * list Effect :=
  match n_room_id notification, userId with
  | Some rid, Some uid =>
      if negb (truthy rid) || negb (truthy uid)
      then (db, [ToastError "Invalid room invitation"])
      else
        match single (roomsWithId rid db) with
        | None => (db, [ToastError "Room no longer exists"])
        | Some room =>
            let db' :=
              update_participants
                (set_rp_status (if join then joined else busy)) rid (Some uid) db in
            if join
            then (db', [RouterPush (room_video_chat_url room);
                        ToastSuccess "Joined room successfully"])
            else (db', [ToastSuccess "Marked as busy"])
        end
  | _, _ => (db, [ToastError "Invalid room invitation"])
  end.

(** A browser on the good path: it accepts every call of the set-up,
    every remote description, and answers an offer. *)
Definition obliging (b : Browser) : Prop :=
  cooperative b
  /\ (forall pc d, setRemoteDescription_ok b pc d = true)
  /\ (forall pc, exists a, createAnswer_result b pc = Some (Some a)).

Definition obligingBrowser : Browser :=
  mkBrowser true
    (fun _ _ => true)
    (fun _ => Some (mkSdp SdpOffer "v=0 o=offer"))
    (fun _ => Some (Some (mkSdp SdpAnswer "v=0 o=answer")))
    (fun _ _ => true)
    (fun _ _ => true)
    (fun _ _ => true).

(** ** The operations on the room store, taken together *)

(** One call of a function that writes to the room store after a room
    exists. *)
Inductive RoomOp : Type :=
| OpSweep (now : Z)
| OpJoin (currentUserId : option string) (roomId : string)
         (password : option string)
| OpCardJoin (room : CardRoom) (currentUserId : option string) (st : CardState)
| OpBusy (currentUserId : option string) (roomId : string)
| OpPageJoin (user : option string) (roomId : string) (now : Z)
| OpKick (isHost : bool) (roomId userId : string)
| OpInvite (userId : option string) (notification : NotificationRow)
           (join : bool).

Definition applyOp (db : DB) (op : RoomOp) : DB :=
  match op with
  | OpSweep now => cleanupExpiredRooms now db
  | OpJoin u rid pw => fst (joinRoom u rid pw db)
  | OpCardJoin room u st => snd (fst (handleJoin room u st db))
  | OpBusy u rid => fst (markAsBusy u rid db)
  | OpPageJoin u rid now =>
      match pageJoinRoom u rid now db with
      | inl db' => db'
      | inr _ => db
      end
  | OpKick h rid uid => fst (handleKickParticipant h rid uid db)
  | OpInvite u note join => fst (handleRoomInvite u note join db)
  end.

(** What every operation keeps of the store. *)
Definition sameFrame (db db' : DB) : Prop :=
  room_activity db' = room_activity db
  /\ map room_id (rooms db') = map room_id (rooms db)
  /\ map room_created_at (rooms db') = map room_created_at (rooms db)
  /\ map room_password (rooms db') = map room_password (rooms db)
  /\ map room_host_id (rooms db') = map room_host_id (rooms db)
  /\ map rp_room_id (room_participants db') = map rp_room_id (room_participants db)
  /\ map rp_user_id (room_participants db') = map rp_user_id (room_participants db).

(** Whether [createOffer] was called on the connection of a session. *)
Definition createsOffer (s : VideoChat) : bool :=
  match peerConnectionRef s with
  | Some pc =>
      existsb (fun e => match fst e with CallCreateOffer => true | _ => false end)
              (pc_calls pc)
  | None => false
  end.

(* ================================================================== *)
(** * Part II: properties *)
(* ================================================================== *)

(** ** String order *)

Lemma js_lt_irrefl : forall a, js_lt a a = false.
Proof.
  induction a as [|x a IH]; simpl; [reflexivity|].
  now rewrite N.compare_refl.
Qed.

Lemma N_of_ascii_inj : forall x y, N_of_ascii x = N_of_ascii y -> x = y.
Proof.
  intros x y H.
  rewrite <- (ascii_N_embedding x), <- (ascii_N_embedding y).
  now rewrite H.
Qed.

Lemma js_lt_flip : forall a b, a <> b -> js_lt b a = negb (js_lt a b).
Proof.
  induction a as [|x a IH]; intros [|y b] Hne; simpl; try reflexivity.
  - congruence.
  - rewrite (N.compare_antisym (N_of_ascii x) (N_of_ascii y)).
    destruct (N_of_ascii x ?= N_of_ascii y)%N eqn:E; simpl; try reflexivity.
    apply N.compare_eq_iff, N_of_ascii_inj in E. subst y.
    apply IH. congruence.
Qed.

(** [js_lt] is the strict lexicographic order of the standard library. *)
Lemma js_lt_ltb : forall a b, js_lt a b = String.ltb a b.
Proof.
  unfold String.ltb.
  induction a as [|x a IH]; intros [|y b]; simpl; try reflexivity.
  unfold Ascii.compare.
  destruct (N_of_ascii x ?= N_of_ascii y)%N; try reflexivity.
  apply IH.
Qed.

Lemma js_lt_asym : forall a b, js_lt a b = true -> js_lt b a = false.
Proof.
  intros a b H.
  destruct (string_dec a b) as [->|Hne].
  - now rewrite js_lt_irrefl in H.
  - now rewrite (js_lt_flip a b Hne), H.
Qed.

(** ** Asynchronous code *)

Lemma addTracks_effects : forall b tracks w,
  snd (fst (addTracks b tracks w)) = snd w.
Proof.
  induction tracks as [|t rest IH]; intros w; simpl; [reflexivity|].
  unfold bind, pcAddTrack, invoke.
  destruct (addTrack_ok b (fst w) t); simpl; [|reflexivity].
  now rewrite IH.
Qed.

Lemma addTracks_cooperative : forall b tracks w,
  (forall pc t, addTrack_ok b pc t = true) ->
  snd (addTracks b tracks w) = Resolved tt.
Proof.
  induction tracks as [|t rest IH]; intros w Hok; simpl; [reflexivity|].
  unfold bind, pcAddTrack, invoke. rewrite Hok. now apply IH.
Qed.

(** Set-up emits nothing but, at most, one offer, and only from the
    side with the smaller identifier. *)
Lemma setupConnection_out : forall b me partner stream pc,
  let r := setupConnection b me partner stream (pc, []) in
  snd (fst r) = []
  \/ (js_lt me partner = true /\ snd r = Resolved tt
      /\ exists offer, snd (fst r) = [Emit (EvOffer offer partner)]).
Proof.
  intros b me partner stream pc. cbv zeta.
  unfold setupConnection, bind.
  set (tr := match stream with
             | Some tracks => addTracks b tracks
             | None => ret tt
             end).
  assert (Htr : snd (fst (tr (pc, []))) = []).
  { subst tr. destruct stream; [apply addTracks_effects | reflexivity]. }
  destruct (tr (pc, [])) as [[pc1 out1] [[]|]]; simpl in Htr; subst out1;
    [|left; reflexivity].
  destruct (js_lt me partner); [|left; reflexivity].
  unfold pcCreateOffer; simpl.
  destruct (createOffer_result b pc1) as [offer|]; [|left; reflexivity].
  unfold pcSetLocalDescription, invoke; simpl.
  destruct (setLocalDescription_ok b _ offer); [|left; reflexivity].
  right. simpl. repeat split. now exists offer.
Qed.

Lemma setupConnection_cooperative : forall b me partner stream pc,
  cooperative b ->
  let r := setupConnection b me partner stream (pc, []) in
  snd r = Resolved tt /\ emitsOffer (snd (fst r)) = js_lt me partner.
Proof.
  intros b me partner stream pc (Hc & Ht & Ho & Hl). cbv zeta.
  unfold setupConnection, bind.
  set (tr := match stream with
             | Some tracks => addTracks b tracks
             | None => ret tt
             end).
  assert (Htr : snd (fst (tr (pc, []))) = [] /\ snd (tr (pc, [])) = Resolved tt).
  { subst tr. destruct stream; [|split; reflexivity].
    split; [apply addTracks_effects | now apply addTracks_cooperative]. }
  destruct (tr (pc, [])) as [[pc1 out1] c]; simpl in Htr.
  destruct Htr as [-> ->].
  destruct (js_lt me partner); [|split; reflexivity].
  unfold pcCreateOffer; simpl.
  specialize (Ho pc1).
  destruct (createOffer_result b pc1) as [offer|]; [|congruence].
  unfold pcSetLocalDescription, invoke; simpl.
  rewrite Hl. split; reflexivity.
Qed.

Lemma emitsOffer_matchFoundCaught : forall out,
  emitsOffer (out ++ matchFoundCaught) = emitsOffer out.
Proof.
  intros out. unfold emitsOffer. rewrite existsb_app. simpl.
  now rewrite orb_false_r.
Qed.

(** Whatever the browser answers, a client emits an offer on a match
    only when its own identifier is the smaller one. *)
Lemma offer_only_from_smaller : forall b s me partner,
  socket_id s = Some me ->
  emitsOffer (snd (handleMatchFound b s partner)) = true ->
  js_lt me partner = true.
Proof.
  intros b s me partner Hid. unfold handleMatchFound. rewrite Hid.
  destruct (negb (truthy me)); [discriminate|].
  destruct (construct_ok b); [|discriminate].
  pose proof (setupConnection_out b me partner (localStreamRef s)
                (mkPc partner [])) as H. cbv zeta in H.
  destruct (setupConnection b me partner (localStreamRef s) (mkPc partner [], []))
    as [[pc out] [[]|]]; simpl in *.
  - destruct H as [-> | (Hlt & _)]; [discriminate | auto].
  - rewrite emitsOffer_matchFoundCaught.
    destruct H as [-> | (Hlt & _)]; [discriminate | auto].
Qed.

Lemma offer_cooperative : forall b s me partner,
  cooperative b ->
  socket_id s = Some me -> truthy me = true ->
  emitsOffer (snd (handleMatchFound b s partner)) = js_lt me partner.
Proof.
  intros b s me partner Hb Hid Hme. unfold handleMatchFound.
  rewrite Hid, Hme. simpl.
  destruct Hb as (Hc & Hrest). rewrite Hc.
  pose proof (setupConnection_cooperative b me partner (localStreamRef s)
                (mkPc partner []) (conj Hc Hrest)) as H. cbv zeta in H.
  destruct (setupConnection b me partner (localStreamRef s) (mkPc partner [], []))
    as [[pc out] c]; simpl in *.
  destruct H as [-> H]. exact H.
Qed.

Lemma addTracks_calls : forall b tracks pc out,
  (forall pc t, addTrack_ok b pc t = true) ->
  addTracks b tracks (pc, out)
  = ((mkPc (pc_signal_to pc)
           (pc_calls pc ++ map (fun t => (CallAddTrack t, true)) tracks),
      out),
     Resolved tt).
Proof.
  intros b tracks. induction tracks as [|t rest IH]; intros pc out Hok.
  - cbn [addTracks map ret]. rewrite app_nil_r. now destruct pc.
  - cbn [addTracks]. unfold bind, pcAddTrack, invoke. cbn [fst snd].
    rewrite Hok. rewrite IH by exact Hok.
    cbn [record_call pc_signal_to pc_calls map].
    now rewrite <- app_assoc.
Qed.

(** The set-up on a fresh connection when the browser accepts it. *)
Lemma setupConnection_calls : forall b me partner stream offer,
  cooperative b ->
  createOffer_result b
    (mkPc partner (map (fun t => (CallAddTrack t, true))
                       (match stream with Some t => t | None => [] end)))
  = Some offer ->
  setupConnection b me partner stream (mkPc partner [], [])
  = if js_lt me partner
    then ((mkPc partner
             (map (fun t => (CallAddTrack t, true))
                  (match stream with Some t => t | None => [] end)
              ++ [(CallCreateOffer, true);
                  (CallSetLocalDescription offer, true)]),
           [Emit (EvOffer offer partner)]),
          Resolved tt)
    else ((mkPc partner
             (map (fun t => (CallAddTrack t, true))
                  (match stream with Some t => t | None => [] end)),
           []),
          Resolved tt).
Proof.
  intros b me partner stream offer (Hc & Ht & Ho & Hl) Hoffer.
  unfold setupConnection, bind.
  destruct stream as [tracks|].
  - rewrite addTracks_calls by exact Ht.
    cbn [pc_signal_to pc_calls app] in *.
    destruct (js_lt me partner); [|reflexivity].
    unfold pcCreateOffer. cbn [fst snd]. rewrite Hoffer.
    unfold pcSetLocalDescription, invoke, perform. cbn [fst snd].
    rewrite Hl. unfold record_call. cbn [pc_signal_to pc_calls app].
    now rewrite <- app_assoc.
  - cbn [ret map app] in *.
    destruct (js_lt me partner); [|reflexivity].
    unfold pcCreateOffer. cbn [fst snd]. rewrite Hoffer.
    unfold pcSetLocalDescription, invoke, perform. cbn [fst snd].
    now rewrite Hl.
Qed.

Lemma matchFound_cooperative : forall b s me partner offer,
  cooperative b ->
  socket_id s = Some me -> truthy me = true ->
  createOffer_result b
    (mkPc partner (map (fun t => (CallAddTrack t, true))
                       (match localStreamRef s with
                        | Some t => t
                        | None => []
                        end)))
  = Some offer ->
  peerConnectionRef (fst (handleMatchFound b s partner))
  = Some (mkPc partner
            (map (fun t => (CallAddTrack t, true))
                 (match localStreamRef s with Some t => t | None => [] end)
             ++ if js_lt me partner
                then [(CallCreateOffer, true);
                      (CallSetLocalDescription offer, true)]
                else []))
  /\ snd (handleMatchFound b s partner)
     = if js_lt me partner then [Emit (EvOffer offer partner)] else [].
Proof.
  intros b s me partner offer Hb Hid Hme Hoffer.
  unfold handleMatchFound. rewrite Hid, Hme. cbn [negb].
  pose proof Hb as (Hc & _). rewrite Hc.
  rewrite (setupConnection_calls b me partner (localStreamRef s) offer Hb Hoffer).
  destruct (js_lt me partner); cbn [fst snd]; split; try reflexivity.
  cbn [setPeerConnection peerConnectionRef]. now rewrite app_nil_r.
Qed.

(** Adding tracks makes no other call, whatever the browser answers. *)
Lemma addTracks_no_offer : forall b tracks w,
  existsb (fun e => match fst e with CallCreateOffer => true | _ => false end)
          (pc_calls (fst (fst (addTracks b tracks w))))
  = existsb (fun e => match fst e with CallCreateOffer => true | _ => false end)
            (pc_calls (fst w)).
Proof.
  intros b tracks. induction tracks as [|t rest IH]; intros w; [reflexivity|].
  cbn [addTracks]. unfold bind, pcAddTrack, invoke.
  destruct (addTrack_ok b (fst w) t); cbn [fst snd].
  - rewrite IH. cbn [fst record_call pc_calls]. rewrite existsb_app.
    cbn. now rewrite orb_false_r.
  - cbn [record_call pc_calls]. rewrite existsb_app. cbn.
    now rewrite orb_false_r.
Qed.

(** The side with the larger identifier never calls [createOffer] on
    the connection it constructs. *)
Lemma no_createOffer_from_larger : forall b s me partner,
  socket_id s = Some me -> truthy me = true ->
  js_lt me partner = false ->
  construct_ok b = true ->
  createsOffer (fst (handleMatchFound b s partner)) = false.
Proof.
  intros b s me partner Hid Hme Hlt Hc.
  unfold handleMatchFound. rewrite Hid, Hme, Hc. cbn [negb].
  unfold setupConnection, bind. rewrite Hlt.
  assert (H : existsb (fun e => match fst e with
                                | CallCreateOffer => true
                                | _ => false
                                end)
                (pc_calls (fst (fst (match localStreamRef s with
                                     | Some tracks => addTracks b tracks
                                     | None => ret tt
                                     end (mkPc partner [], [])))))
              = false).
  { destruct (localStreamRef s) as [tracks|]; [|reflexivity].
    now rewrite addTracks_no_offer. }
  destruct (match localStreamRef s with
            | Some tracks => addTracks b tracks
            | None => ret tt
            end (mkPc partner [], [])) as [[pc out] [[]|]];
    cbn [fst snd ret] in *; unfold createsOffer;
    cbn [setPeerConnection peerConnectionRef]; exact H.
Qed.

(** ** Initiator selection *)

(** C3.  Of two matched clients with distinct connection identifiers,
    exactly one has the smaller identifier in the lexicographic order,
    and it is that one that creates and sends the offer: on its fresh
    connection to the partner it adds its local tracks, calls
    [createOffer], applies the offer the browser returns as local
    description and emits that offer, addressed to the partner, and
    nothing else.  The other client only adds its tracks and emits
    nothing.  Which one it is depends on the two identifiers alone.
    Whatever its browser answers, the client with the larger identifier
    emits no offer and makes no [createOffer] call on the connection it
    constructs. *)
Theorem initiator_is_smaller_id :
  forall (bA bB : Browser) (sA sB : VideoChat) (idA idB : string),
    cooperative bA -> cooperative bB ->
    socket_id sA = Some idA -> socket_id sB = Some idB ->
    truthy idA = true -> truthy idB = true ->
    idA <> idB ->
    js_lt idB idA = negb (js_lt idA idB)
    /\ (exists offer,
          createOffer_result bA
            (mkPc idB (map (fun t => (CallAddTrack t, true))
                           (match localStreamRef sA with
                            | Some t => t
                            | None => []
                            end)))
          = Some offer
          /\ peerConnectionRef (fst (handleMatchFound bA sA idB))
             = Some (mkPc idB
                       (map (fun t => (CallAddTrack t, true))
                            (match localStreamRef sA with
                             | Some t => t
                             | None => []
                             end)
                        ++ if js_lt idA idB
                           then [(CallCreateOffer, true);
                                 (CallSetLocalDescription offer, true)]
                           else []))
          /\ snd (handleMatchFound bA sA idB)
             = if js_lt idA idB then [Emit (EvOffer offer idB)] else [])
    /\ (exists offer,
          createOffer_result bB
            (mkPc idA (map (fun t => (CallAddTrack t, true))
                           (match localStreamRef sB with
                            | Some t => t
                            | None => []
                            end)))
          = Some offer
          /\ peerConnectionRef (fst (handleMatchFound bB sB idA))
             = Some (mkPc idA
                       (map (fun t => (CallAddTrack t, true))
                            (match localStreamRef sB with
                             | Some t => t
                             | None => []
                             end)
                        ++ if js_lt idB idA
                           then [(CallCreateOffer, true);
                                 (CallSetLocalDescription offer, true)]
                           else []))
          /\ snd (handleMatchFound bB sB idA)
             = if js_lt idB idA then [Emit (EvOffer offer idA)] else [])
    /\ (forall b s, socket_id s = Some idB -> js_lt idA idB = true ->
                    emitsOffer (snd (handleMatchFound b s idA)) = false
                    /\ (construct_ok b = true ->
                        createsOffer (fst (handleMatchFound b s idA)) = false)).
Proof.
  intros bA bB sA sB idA idB HbA HbB HA HB HtA HtB Hne.
  split; [exact (js_lt_flip idA idB Hne)|].
  split; [|split].
  - pose proof HbA as (_ & _ & Ho & _).
    destruct (createOffer_result bA
                (mkPc idB (map (fun t => (CallAddTrack t, true))
                               (match localStreamRef sA with
                                | Some t => t
                                | None => []
                                end))))
      as [offer|] eqn:E; [|now elim (Ho _ E)].
    exists offer. split; [reflexivity|].
    exact (matchFound_cooperative bA sA idA idB offer HbA HA HtA E).
  - pose proof HbB as (_ & _ & Ho & _).
    destruct (createOffer_result bB
                (mkPc idA (map (fun t => (CallAddTrack t, true))
                               (match localStreamRef sB with
                                | Some t => t
                                | None => []
                                end))))
      as [offer|] eqn:E; [|now elim (Ho _ E)].
    exists offer. split; [reflexivity|].
    exact (matchFound_cooperative bB sB idB idA offer HbB HB HtB E).
  - intros b s Hs Hlt. split.
    + destruct (emitsOffer (snd (handleMatchFound b s idA))) eqn:E;
        [|reflexivity].
      apply (offer_only_from_smaller b s idB idA Hs) in E.
      apply js_lt_asym in Hlt. congruence.
    + intros Hc.
      exact (no_createOffer_from_larger b s idB idA Hs HtB
               (js_lt_asym idA idB Hlt) Hc).
Qed.

Lemma initiator_is_smaller_id_witness :
  js_lt "abc" "xyz" = true
  /\ peerConnectionRef
       (fst (handleMatchFound referenceBrowser (searching "abc") "xyz"))
     = Some (mkPc "xyz"
               [(CallAddTrack "audio", true); (CallAddTrack "video", true);
                (CallCreateOffer, true);
                (CallSetLocalDescription (mkSdp SdpOffer "v=0 o=offer"), true)])
  /\ snd (handleMatchFound referenceBrowser (searching "abc") "xyz")
     = [Emit (EvOffer (mkSdp SdpOffer "v=0 o=offer") "xyz")]
  /\ peerConnectionRef
       (fst (handleMatchFound referenceBrowser (searching "xyz") "abc"))
     = Some (mkPc "abc"
               [(CallAddTrack "audio", true); (CallAddTrack "video", true)])
  /\ snd (handleMatchFound referenceBrowser (searching "xyz") "abc") = [].
Proof.
  assert (Hc : cooperative referenceBrowser).
  { repeat split; intros; simpl; congruence. }
  destruct (initiator_is_smaller_id referenceBrowser referenceBrowser
              (searching "abc") (searching "xyz") "abc" "xyz"
              Hc Hc eq_refl eq_refl eq_refl eq_refl)
    as (_ & (offerA & HoA & HpcA & HoutA) & (offerB & HoB & HpcB & HoutB) & _).
  - discriminate.
  - simpl in HoA. injection HoA as <-.
    split; [reflexivity|].
    split; [exact HpcA|]. split; [exact HoutA|].
    split; [exact HpcB | exact HoutB].
Defined.

(** ** Offers without a connection *)

(** C10.  An offer that arrives while the client has no peer connection
    is ignored: the handler returns the state as it was (so no
    connection is created) and emits nothing: no answer, no error. *)
Theorem offer_without_connection_is_ignored :
  forall (b : Browser) (s : VideoChat) (offer : SessionDescription)
         (from : string),
    peerConnectionRef s = None ->
    handleOffer b s offer from = (s, [])
    /\ peerConnectionRef (fst (handleOffer b s offer from)) = None
    /\ emitsAnswer (snd (handleOffer b s offer from)) = false
    /\ showsError (snd (handleOffer b s offer from)) = false
    /\ rejectsUnhandled (snd (handleOffer b s offer from)) = false.
Proof.
  intros b s offer from Hpc. unfold handleOffer. rewrite Hpc.
  simpl. rewrite Hpc. repeat split.
Qed.

Lemma offer_without_connection_is_ignored_witness :
  peerConnectionRef (searching "xyz") = None
  /\ handleOffer referenceBrowser (searching "xyz") offerOfAbc "abc"
     = (searching "xyz", []).
Proof.
  split; [reflexivity|].
  apply (offer_without_connection_is_ignored referenceBrowser (searching "xyz")
           offerOfAbc "abc" eq_refl).
Defined.

(** ** Errors during negotiation *)





(** The handlers of relayed messages have no [catch]: a malformed offer
    rejects in the browser, nothing is shown, the state stays. *)
Lemma malformed_offer_is_unhandled :
  let r := onSignal referenceBrowser answerer (SigOffer (mkSdp SdpOffer "") "abc") in
  rejectsUnhandled (snd r) = true
  /\ showsError (snd r) = false
  /\ isIdle (fst r) = false.
Proof. repeat split. Qed.

(** [endChat] is the one path to Idle. *)
Lemma endChat_isIdle : forall s, isIdle (fst (endChat s)) = true.
Proof. reflexivity. Qed.

(** ** Relayed messages *)

Lemma skipPartner_keeps_connection : forall d s,
  peerConnectionRef (fst (skipPartner d s)) = peerConnectionRef s.
Proof. reflexivity. Qed.

Lemma offeredCandidates_app : forall a b,
  offeredCandidates (a ++ b) = offeredCandidates a ++ offeredCandidates b.
Proof. intros. unfold offeredCandidates. apply flat_map_app. Qed.

Ltac browser_cases :=
  repeat match goal with
         | |- context [if ?c then _ else _] => destruct c eqn:?; simpl
         | |- context [match createAnswer_result ?b ?pc with _ => _ end] =>
             destruct (createAnswer_result b pc) as [[?|]|] eqn:?; simpl
         end.

(** A relayed message taken with a connection in place starts with its
    call on that connection; an offer or an answer hands no candidate to
    the transport, a candidate message hands exactly its own. *)
Lemma onSignal_calls : forall b s m pc,
  peerConnectionRef s = Some pc ->
  exists ok rest,
    callsOf (fst (onSignal b s m)) = Some (pc_calls pc ++ (firstCall m, ok) :: rest)
    /\ offeredCandidates ((firstCall m, ok) :: rest) = candidatesOf [m].
Proof.
  intros b s [offer from | answer from | candidate from] pc Hpc; simpl;
    unfold handleOffer, handleAnswer, handleIceCandidate; rewrite Hpc;
    unfold runHandler, bind, pcSetRemoteDescription, pcCreateAnswer,
      pcSetLocalDescription, pcAddIceCandidate, perform, invoke, callsOf;
    simpl; browser_cases; rewrite <- ?app_assoc; simpl;
    eexists; eexists; (split; [reflexivity | reflexivity]).
Qed.

Lemma onSignal_ignores_sender : forall b s m f,
  fst (onSignal b s (sentBy f m)) = fst (onSignal b s m).
Proof.
  intros b s [offer from | answer from | candidate from] f; simpl;
    try reflexivity.
  unfold handleOffer. destruct (peerConnectionRef s) as [pc|]; [|reflexivity].
  unfold runHandler, bind, pcSetRemoteDescription, pcCreateAnswer,
    pcSetLocalDescription, perform, invoke; simpl.
  browser_cases; reflexivity.
Qed.

Lemma onSignal_ignores_partner : forall b s m p,
  onSignal b (setPartnerId p s) m
  = (setPartnerId p (fst (onSignal b s m)), snd (onSignal b s m)).
Proof.
  intros b s [offer from | answer from | candidate from] p; simpl;
    unfold handleOffer, handleAnswer, handleIceCandidate; simpl;
    (destruct (peerConnectionRef s) as [pc|]; [|reflexivity]);
    unfold runHandler;
    match goal with
    | |- context [match ?body (pc, []) with _ => _ end] =>
        destruct (body (pc, [])) as [[pc' out] [[]|]]; reflexivity
    end.
Qed.

(** C4 (as the code has it).  The handlers of relayed offers, answers
    and candidates never compare the sender with the current partner.
    A message is dropped exactly when the client has no peer connection;
    with a connection in place the message's call is made on it, and the
    resulting state is the same whoever the relay names as sender and
    whatever partner is recorded. *)
Theorem signals_are_applied_whoever_sent_them :
  forall (b : Browser) (s : VideoChat) (m : Signal),
    (peerConnectionRef s = None -> onSignal b s m = (s, []))
    /\ (forall pc, peerConnectionRef s = Some pc ->
          exists ok rest,
            callsOf (fst (onSignal b s m))
            = Some (pc_calls pc ++ (firstCall m, ok) :: rest))
    /\ (forall f, fst (onSignal b s (sentBy f m)) = fst (onSignal b s m))
    /\ (forall p, fst (onSignal b (setPartnerId p s) m)
                  = setPartnerId p (fst (onSignal b s m))).
Proof.
  intros b s m. split; [|split; [|split]].
  - intros Hpc. destruct m; simpl;
      unfold handleOffer, handleAnswer, handleIceCandidate;
      now rewrite Hpc.
  - intros pc Hpc.
    destruct (onSignal_calls b s m pc Hpc) as (ok & rest & H & _).
    now exists ok, rest.
  - intros f. apply onSignal_ignores_sender.
  - intros p. now rewrite onSignal_ignores_partner.
Qed.

Lemma signals_are_applied_whoever_sent_them_witness :
  partnerId rematched = Some "def"
  /\ signal_from staleAnswer = "xyz"
  /\ exists ok rest,
       callsOf (fst (onSignal referenceBrowser rematched staleAnswer))
       = Some ([(CallAddTrack "audio", true); (CallAddTrack "video", true);
                (CallCreateOffer, true);
                (CallSetLocalDescription (mkSdp SdpOffer "v=0 o=offer"), true)]
               ++ (firstCall staleAnswer, ok) :: rest).
Proof.
  split; [reflexivity|]. split; [reflexivity|].
  destruct (signals_are_applied_whoever_sent_them referenceBrowser rematched
              staleAnswer) as (_ & H & _).
  exact (H (mkPc "def"
              [(CallAddTrack "audio", true); (CallAddTrack "video", true);
               (CallCreateOffer, true);
               (CallSetLocalDescription (mkSdp SdpOffer "v=0 o=offer"), true)])
           eq_refl).
Defined.

(** C4, the claim as stated fails: "abc" skipped "xyz" and is now paired
    with "def"; the late answer of "xyz" is not discarded but becomes
    the remote description of the connection to "def". *)
Lemma stale_answer_is_applied_counterexample :
  partnerId rematched = Some "def"
  /\ signal_from staleAnswer = "xyz"
  /\ fst (onSignal referenceBrowser rematched staleAnswer) <> rematched
  /\ option_map remoteDescription
       (peerConnectionRef (fst (onSignal referenceBrowser rematched staleAnswer)))
     = Some (Some (mkSdp SdpAnswer "v=0 o=answer-of-xyz"))
  /\ option_map pc_signal_to
       (peerConnectionRef (fst (onSignal referenceBrowser rematched staleAnswer)))
     = Some "def".
Proof.
  split; [reflexivity|]. split; [reflexivity|]. split; [|split; reflexivity].
  intros H. apply (f_equal callsOf) in H. vm_compute in H. discriminate.
Qed.

(** ** Remote candidates *)

Lemma candidatesOf_cons : forall m ms,
  candidatesOf (m :: ms) = candidatesOf [m] ++ candidatesOf ms.
Proof.
  intros m ms. unfold candidatesOf. simpl. now rewrite app_nil_r.
Qed.

Lemma onSignals_calls : forall b ms s pc,
  peerConnectionRef s = Some pc ->
  exists calls,
    callsOf (fst (onSignals b s ms)) = Some (pc_calls pc ++ calls)
    /\ offeredCandidates calls = candidatesOf ms.
Proof.
  induction ms as [|m ms IH]; intros s pc Hpc.
  - exists []. simpl. unfold callsOf. rewrite Hpc, app_nil_r. now split.
  - destruct (onSignal_calls b s m pc Hpc) as (ok & rest & Hcalls & Hoff).
    cbn [onSignals].
    destruct (onSignal b s m) as [s1 out1] eqn:E1.
    cbn [fst] in Hcalls. unfold callsOf in Hcalls.
    destruct (peerConnectionRef s1) as [pc1|] eqn:Hpc1; [|discriminate].
    cbn [option_map] in Hcalls. injection Hcalls as Hcalls.
    destruct (IH s1 pc1 Hpc1) as (calls & Hc & Ho).
    destruct (onSignals b s1 ms) as [s2 out2] eqn:E2.
    cbn [fst] in *.
    exists (((firstCall m, ok) :: rest) ++ calls). split.
    + rewrite Hc, Hcalls. now rewrite <- app_assoc.
    + now rewrite offeredCandidates_app, Ho, Hoff, <- candidatesOf_cons.
Qed.

(** C5 (as the code has it).  There is no candidate buffer.  With a peer
    connection in place, a received candidate is handed to
    [addIceCandidate] at once, whether or not a remote description has
    been applied, and it is the browser that accepts or rejects it then;
    over any sequence of relayed messages the candidates handed to the
    transport are exactly the received ones, once each and in receipt
    order, so none is handed over again when a description arrives. *)
Theorem candidates_go_straight_to_the_transport :
  forall (b : Browser) (s : VideoChat) (pc : RTCPeerConnection),
    peerConnectionRef s = Some pc ->
    (forall c,
        callsOf (fst (handleIceCandidate b s c))
        = Some (pc_calls pc
                ++ [(CallAddIceCandidate c, addIceCandidate_ok b pc c)]))
    /\ (forall ms, exists calls,
          callsOf (fst (onSignals b s ms)) = Some (pc_calls pc ++ calls)
          /\ offeredCandidates calls = candidatesOf ms).
Proof.
  intros b s pc Hpc. split.
  - intros c. unfold handleIceCandidate. rewrite Hpc.
    unfold runHandler, pcAddIceCandidate, invoke, callsOf. simpl.
    destruct (addIceCandidate_ok b pc c); reflexivity.
  - intros ms. now apply onSignals_calls.
Qed.

Lemma candidates_go_straight_to_the_transport_witness :
  option_map remoteDescription (peerConnectionRef answerer) = Some None
  /\ callsOf (fst (handleIceCandidate referenceBrowser answerer "c1"))
     = Some ([(CallAddTrack "audio", true); (CallAddTrack "video", true)]
             ++ [(CallAddIceCandidate "c1", false)]).
Proof.
  split; [reflexivity|].
  destruct (candidates_go_straight_to_the_transport referenceBrowser answerer
              (mkPc "abc" [(CallAddTrack "audio", true);
                           (CallAddTrack "video", true)]) eq_refl)
    as (H & _).
  exact (H "c1").
Defined.

(** C5, the claim as stated fails: "xyz" receives the candidate "c1" of
    "abc" before the offer.  The candidate is handed to the browser at
    once, which rejects it for want of a remote description; when the
    offer has been applied no candidate has been, and "c1" is not handed
    over again. *)
Lemma early_candidate_is_lost_counterexample :
  option_map remoteDescription (peerConnectionRef answerer) = Some None
  /\ option_map remoteDescription
       (peerConnectionRef
          (fst (onSignals referenceBrowser answerer
                  [SigIceCandidate "c1" "abc"; SigOffer offerOfAbc "abc"])))
     = Some (Some offerOfAbc)
  /\ option_map appliedCandidates
       (peerConnectionRef
          (fst (onSignals referenceBrowser answerer
                  [SigIceCandidate "c1" "abc"; SigOffer offerOfAbc "abc"])))
     = Some []
  /\ callsOf
       (fst (onSignals referenceBrowser answerer
               [SigIceCandidate "c1" "abc"; SigOffer offerOfAbc "abc"]))
     = Some [(CallAddTrack "audio", true); (CallAddTrack "video", true);
             (CallAddIceCandidate "c1", false);
             (CallSetRemoteDescription offerOfAbc, true);
             (CallCreateAnswer, true);
             (CallSetLocalDescription (mkSdp SdpAnswer "v=0 o=answer"), true)].
Proof. repeat split. Qed.

(** ** The expiration sweep *)

Lemma expireRoom_closed : forall now db room,
  expireRoom now db room
  = if idleAlone now (room_participants db) (room_activity db) room
    then update_rooms (set_room_ended now) (room_id room) db
    else db.
Proof.
  intros now db room. unfold expireRoom, idleAlone.
  destruct (List.length _ <=? 1)%nat; reflexivity.
Qed.

Lemma expireRoom_tables : forall now db room,
  room_participants (expireRoom now db room) = room_participants db
  /\ room_activity (expireRoom now db room) = room_activity db.
Proof.
  intros now db room. rewrite expireRoom_closed.
  destruct (idleAlone _ _ _ _); split; reflexivity.
Qed.

(** The loop of the sweep ends the rows whose id is that of a selected
    room passing the two nested tests, and touches nothing else. *)
Lemma sweep_loop_closed : forall now l db,
  fold_left (expireRoom now) l db
  = mkDB (map (fun r => if sweptIds now db l r then set_room_ended now r else r)
              (rooms db))
         (room_participants db) (room_activity db).
Proof.
  intros now l. induction l as [|x l IH]; intros db.
  - simpl. rewrite map_id. now destruct db.
  - cbn [fold_left]. rewrite IH.
    destruct (expireRoom_tables now db x) as [Hp Ha].
    unfold sweptIds. rewrite Hp, Ha. f_equal.
    rewrite expireRoom_closed. cbn [existsb].
    destruct (idleAlone now (room_participants db) (room_activity db) x) eqn:Hx.
    + cbn [update_rooms rooms]. rewrite map_map. apply map_ext. intros r.
      rewrite andb_true_r.
      destruct (room_id r =? room_id x)%string eqn:Hid; cbn [orb].
      * now destruct (existsb _ l).
      * reflexivity.
    + apply map_ext. intros r. now rewrite andb_false_r.
Qed.

Lemma cleanupExpiredRooms_closed : forall now db,
  cleanupExpiredRooms now db
  = mkDB (map (fun r => if sweptIds now db (roomsToExpire now db) r
                        then set_room_ended now r else r)
              (rooms db))
         (room_participants db) (room_activity db).
Proof. intros. apply sweep_loop_closed. Qed.

(** The sweep never moves a status backward. *)
Lemma sweep_moves_forward : forall now db r',
  In r' (rooms (cleanupExpiredRooms now db)) ->
  exists r, In r (rooms db) /\ room_id r' = room_id r
            /\ (status_rank (room_status r) <= status_rank (room_status r'))%nat.
Proof.
  intros now db r'. rewrite cleanupExpiredRooms_closed. cbn [rooms].
  rewrite in_map_iff. intros (r & <- & Hin). exists r. split; [exact Hin|].
  destruct (sweptIds _ _ _ r); simpl; split; auto.
  destruct (room_status r); simpl; lia.
Qed.

Lemma sweptIds_false : forall now db l r,
  (forall x, In x l -> room_id x = room_id r ->
             idleAlone now (room_participants db) (room_activity db) x = false) ->
  sweptIds now db l r = false.
Proof.
  intros now db l r H. unfold sweptIds.
  apply not_true_is_false. intros Hex.
  apply existsb_exists in Hex. destruct Hex as (x & Hin & Hx).
  apply andb_prop in Hx. destruct Hx as [Hid Hidle].
  apply String.eqb_eq in Hid. rewrite (H x Hin (eq_sym Hid)) in Hidle.
  discriminate.
Qed.

(** What the sweep does not do (1): a room created less than ten
    minutes ago, or exactly ten, is never ended, however idle. *)
Lemma sweep_spares_young_rooms : forall now db r,
  In r (rooms db) ->
  (forall x, In x (rooms db) -> room_id x = room_id r -> x = r) ->
  now - 10 * 60000 <= room_created_at r ->
  In r (rooms (cleanupExpiredRooms now db)).
Proof.
  intros now db r Hin Hkey Hyoung.
  rewrite cleanupExpiredRooms_closed. cbn [rooms].
  apply in_map_iff. exists r. split; [|exact Hin].
  assert (Hnot : forall x, In x (roomsToExpire now db) -> room_id x <> room_id r).
  { intros x Hx Hid. unfold roomsToExpire in Hx.
    apply filter_In in Hx. destruct Hx as [Hx Hsel].
    rewrite (Hkey x Hx Hid) in Hsel.
    apply andb_prop in Hsel. destruct Hsel as [_ Hlt].
    apply Z.ltb_lt in Hlt. lia. }
  rewrite sweptIds_false; [reflexivity|].
  intros x Hx Hid. now apply Hnot in Hx.
Qed.

(** What the sweep does not do (2): a room with two or more joined
    participants is never ended, however old. *)
Lemma sweep_spares_rooms_in_company : forall now db r,
  In r (rooms db) ->
  (forall x, In x (rooms db) -> room_id x = room_id r -> x = r) ->
  (2 <= List.length
          (filter (fun p => (rp_room_id p =? room_id r)%string
                            && ParticipantStatus_eqb (rp_status p) joined)
                  (room_participants db)))%nat ->
  In r (rooms (cleanupExpiredRooms now db)).
Proof.
  intros now db r Hin Hkey Htwo.
  rewrite cleanupExpiredRooms_closed. cbn [rooms].
  apply in_map_iff. exists r. split; [|exact Hin].
  rewrite sweptIds_false; [reflexivity|].
  intros x Hx Hid. unfold roomsToExpire in Hx.
  apply filter_In in Hx. destruct Hx as [Hx _].
  rewrite (Hkey x Hx Hid). unfold idleAlone.
  apply andb_false_intro1. apply Nat.leb_gt. lia.
Qed.

(** What the sweep does: a waiting or active room older than ten
    minutes, with at most one joined participant and idle for more than
    five minutes, is ended at [now]. *)
Lemma sweep_ends_old_idle_rooms : forall now db r,
  In r (rooms db) ->
  room_status r <> ended ->
  room_created_at r < now - 10 * 60000 ->
  idleAlone now (room_participants db) (room_activity db) r = true ->
  In (set_room_ended now r) (rooms (cleanupExpiredRooms now db)).
Proof.
  intros now db r Hin Hst Hold Hidle.
  rewrite cleanupExpiredRooms_closed. cbn [rooms].
  apply in_map_iff. exists r. split; [|exact Hin].
  assert (Hsw : sweptIds now db (roomsToExpire now db) r = true).
  { unfold sweptIds. apply existsb_exists. exists r. split.
    - unfold roomsToExpire. apply filter_In. split; [exact Hin|].
      apply andb_true_intro. split.
      + destruct (room_status r); try reflexivity. congruence.
      + now apply Z.ltb_lt.
    - now rewrite String.eqb_refl, Hidle. }
  now rewrite Hsw.
Qed.

(** C1, evaluated.  The room "r1" is active, eleven minutes old and has
    three joined participants.  The card labels it expired by age; the
    sweep leaves the store as it was, the room still active. *)
Theorem sweep_keeps_old_room_in_company :
  room_status busyRoom = active
  /\ 10 * minute <= 11 * minute - room_created_at busyRoom
  /\ getExpirationStatus (11 * minute) busyCard = Some "Expired (>10min)"
  /\ cleanupExpiredRooms (11 * minute) busyDb = busyDb.
Proof. repeat split. discriminate. Qed.

(** C2, evaluated.  The room "r2" is waiting, six minutes old, only its
    host ever joined and nothing happened since.  The card labels it
    expired for inactivity; the sweep leaves the store as it was, the
    room still waiting. *)
Theorem sweep_keeps_idle_young_room :
  room_status lonelyRoom = waiting
  /\ map rp_user_id (room_participants lonelyDb) = ["alice"]
  /\ map ra_last_active (room_activity lonelyDb) = [Some 0]
  /\ getExpirationStatus (6 * minute) lonelyCard = Some "Expired (inactive)"
  /\ cleanupExpiredRooms (6 * minute) lonelyDb = lonelyDb.
Proof. repeat split. Qed.

(** ** Room status *)

Lemma joinRoom_keeps_rooms : forall u rid pw db,
  rooms (fst (joinRoom u rid pw db)) = rooms db.
Proof.
  intros u rid pw db. unfold joinRoom.
  destruct (single _) as [room|]; [|reflexivity].
  destruct (match room_password room with Some _ => _ | None => _ end);
    reflexivity.
Qed.

Lemma markAsBusy_keeps_rooms : forall u rid db,
  rooms (fst (markAsBusy u rid db)) = rooms db.
Proof. reflexivity. Qed.

Lemma handleKickParticipant_keeps_rooms : forall h rid uid db,
  rooms (fst (handleKickParticipant h rid uid db)) = rooms db.
Proof. intros [] rid uid db; reflexivity. Qed.

Lemma createRoom_keeps_rooms : forall u g n pw rid now db r,
  In r (rooms db) -> In r (rooms (fst (createRoom u g n pw rid now db))).
Proof.
  intros u g n pw rid now db r Hin. unfold createRoom.
  destruct (negb (truthy_opt u) || negb (truthy g) || negb (truthy n));
    [exact Hin|].
  destruct u; [|exact Hin]. cbn [fst rooms]. apply in_or_app. now left.
Qed.

(** C6, evaluated.  The room "r3" has ended.  Bob, who holds a
    participant row, opens its page: [joinRoom] of the page writes
    [active] over [ended]. *)
Theorem page_join_reopens_ended_room :
  map room_status (rooms endedDb) = [ended]
  /\ exists db',
       pageJoinRoom (Some "bob") "r3" (13 * minute) endedDb = inl db'
       /\ map room_status (rooms db') = [active]
       /\ map room_ended_at (rooms db') = [Some (12 * minute)].
Proof.
  split; [reflexivity|]. eexists. split; [reflexivity|]. split; reflexivity.
Qed.

(** ** Joining from the panel *)

(** C7.  [joinRoom] on a room that has a password, called with another
    password or none, reports "Incorrect password", does not navigate
    and leaves the whole store, so the participant and activity rows, as
    it was.  The same holds when the call comes through the card. *)
Theorem wrong_password_changes_nothing :
  forall (currentUserId : option string) (roomId : string)
         (password : option string) (db : DB) (room : Room) (pw : string),
    single (filter (fun r => (room_id r =? roomId)%string) (rooms db))
    = Some room ->
    room_password room = Some pw ->
    truthy pw = true ->
    password <> Some pw ->
    joinRoom currentUserId roomId password db
    = (db, [ConsoleError "Error joining room:"; ToastError "Incorrect password"])
    /\ room_participants (fst (joinRoom currentUserId roomId password db))
       = room_participants db
    /\ room_activity (fst (joinRoom currentUserId roomId password db))
       = room_activity db
    /\ (forall card st,
          card_id card = roomId ->
          password = Some (card_input_password st) ->
          snd (fst (handleJoin card currentUserId st db)) = db).
Proof.
  intros u roomId password db room pw Hroom Hpw Htruthy Hneq.
  assert (Hjoin : joinRoom u roomId password db
                  = (db, [ConsoleError "Error joining room:";
                          ToastError "Incorrect password"])).
  { unfold joinRoom. rewrite Hroom, Hpw, Htruthy.
    assert (Hs : strict_neq pw password = true).
    { unfold strict_neq. destruct password as [v|]; [|reflexivity].
      destruct (pw =? v)%string eqn:E; [|reflexivity].
      apply String.eqb_eq in E. subst v. congruence. }
    now rewrite Hs. }
  rewrite Hjoin. repeat split.
  intros card st Hid Hst. unfold handleJoin.
  destruct (negb (truthy_opt u)); [reflexivity|].
  destruct (RoomStatus_eqb (card_status card) ended); [reflexivity|].
  destruct (truthy_opt (card_password card)
            && negb (truthy (card_input_password st))); [reflexivity|].
  rewrite Hid, <- Hst, Hjoin. reflexivity.
Qed.

Lemma wrong_password_changes_nothing_witness :
  room_password lockedRoom = Some "s3cret"
  /\ joinRoom (Some "bob") "r4" (Some "nope") lockedDb
     = (lockedDb, [ConsoleError "Error joining room:";
                   ToastError "Incorrect password"]).
Proof.
  split; [reflexivity|].
  destruct (wrong_password_changes_nothing (Some "bob") "r4" (Some "nope")
              lockedDb lockedRoom "s3cret" eq_refl eq_refl eq_refl) as (H & _).
  - discriminate.
  - exact H.
Defined.

(** The card refuses a room it knows to have ended. *)
Lemma handleJoin_refuses_ended_card : forall card u st db,
  truthy_opt u = true ->
  card_status card = ended ->
  handleJoin card u st db = (st, db, [ToastError "This room has ended"]).
Proof.
  intros card u st db Hu Hst. unfold handleJoin. now rewrite Hu, Hst.
Qed.

(** [joinRoom] never looks at the status of the room it has read. *)
Lemma joinRoom_ignores_status : forall u rid pw db st,
  joinRoom u rid pw (mkDB (map (set_room_status st) (rooms db))
                          (room_participants db) (room_activity db))
  = (mkDB (map (set_room_status st)
               (rooms (fst (joinRoom u rid pw db))))
          (room_participants (fst (joinRoom u rid pw db)))
          (room_activity (fst (joinRoom u rid pw db))),
     snd (joinRoom u rid pw db)).
Proof.
  intros u rid pw db st. unfold joinRoom. cbn [rooms].
  assert (Hf : filter (fun r => (room_id r =? rid)%string)
                      (map (set_room_status st) (rooms db))
               = map (set_room_status st)
                     (filter (fun r => (room_id r =? rid)%string) (rooms db))).
  { induction (rooms db) as [|r l IH]; [reflexivity|].
    cbn [map filter room_id set_room_status].
    destruct (room_id r =? rid)%string; cbn [map]; now rewrite IH. }
  rewrite Hf.
  destruct (filter (fun r => (room_id r =? rid)%string) (rooms db))
    as [|r [|r2 l]]; try reflexivity.
  cbn [map single set_room_status room_password room_video_chat_url].
  destruct (match room_password r with Some _ => _ | None => _ end);
    reflexivity.
Qed.

(** C8, evaluated.  The room "r3" has ended; Bob was invited.  The card
    rendered after the end refuses; [joinRoom] itself, called directly
    or through the card rendered before the end, marks Bob as joined
    and navigates to the room. *)
Theorem joinRoom_joins_ended_room :
  map room_status (rooms endedDb) = [ended]
  /\ snd (handleJoin freshCard (Some "bob") (mkCardState false "") endedDb)
     = [ToastError "This room has ended"]
  /\ snd (joinRoom (Some "bob") "r3" (Some "") endedDb)
     = [RouterPush "/video-chat/r3"]
  /\ map (fun p => (rp_user_id p, rp_status p))
         (room_participants (fst (joinRoom (Some "bob") "r3" (Some "") endedDb)))
     = [("alice", joined); ("bob", joined)]
  /\ handleJoin staleCard (Some "bob") (mkCardState false "") endedDb
     = (mkCardState false "",
        fst (joinRoom (Some "bob") "r3" (Some "") endedDb),
        [RouterPush "/video-chat/r3"]).
Proof. repeat split. Qed.

(* ================================================================== *)
(** * Part III: further properties of the code *)
(* ================================================================== *)

(** ** Lists and queries *)

Lemma existsb_filter : forall (A : Type) (p f : A -> bool) (l : list A),
  existsb f (filter p l) = existsb (fun x => p x && f x) l.
Proof.
  intros A p f l. induction l as [|x l IH]; [reflexivity|].
  simpl. destruct (p x); simpl; now rewrite IH.
Qed.

Lemma filter_map_commute :
  forall (A : Type) (p : A -> bool) (g : A -> A) (l : list A),
    (forall x, p (g x) = p x) ->
    filter p (map g l) = map g (filter p l).
Proof.
  intros A p g l Hp. induction l as [|x l IH]; [reflexivity|].
  simpl. rewrite Hp. destruct (p x); simpl; now rewrite IH.
Qed.

Lemma filter_none : forall (A : Type) (p : A -> bool) (l : list A),
  filter p l = [] -> forall x, In x l -> p x = false.
Proof.
  intros A p l H x Hin. destruct (p x) eqn:E; [|reflexivity].
  assert (Hx : In x (filter p l)) by (apply filter_In; now split).
  rewrite H in Hx. destruct Hx.
Qed.

Lemma map_unchanged : forall (A : Type) (c : A -> bool) (f : A -> A) (l : list A),
  filter c l = [] -> map (fun x => if c x then f x else x) l = l.
Proof.
  intros A c f l H. rewrite <- (map_id l) at 2. apply map_ext_in.
  intros x Hin. now rewrite (filter_none A c l H x Hin).
Qed.

Lemma idleAlone_eq : forall now ps acts r,
  idleAlone now ps acts r
  = (List.length (joinedIn (room_id r) ps) <=? 1)%nat
    && (lastActiveTime acts r <? now - 5 * 60000).
Proof. reflexivity. Qed.

(** With one row for its id, a room is swept exactly when it meets the
    three conditions. *)
Lemma sweptIds_expires : forall now db r,
  roomsWithId (room_id r) db = [r] ->
  sweptIds now db (roomsToExpire now db) r = expires now db r.
Proof.
  intros now db r Hone. unfold sweptIds, roomsToExpire.
  rewrite existsb_filter.
  transitivity
    (existsb (fun x => (RoomStatus_eqb (room_status x) waiting
                        || RoomStatus_eqb (room_status x) active)
                       && (room_created_at x <? now - 10 * 60000)
                       && idleAlone now (room_participants db) (room_activity db) x)
             (roomsWithId (room_id r) db)).
  - unfold roomsWithId. rewrite existsb_filter.
    induction (rooms db) as [|x l IH]; [reflexivity|].
    cbn [existsb]. rewrite IH. f_equal.
    rewrite (String.eqb_sym (room_id r) (room_id x)).
    destruct (room_id x =? room_id r)%string;
      destruct (RoomStatus_eqb (room_status x) waiting
                || RoomStatus_eqb (room_status x) active);
      destruct (room_created_at x <? now - 10 * 60000);
      destruct (idleAlone now (room_participants db) (room_activity db) x);
      reflexivity.
  - rewrite Hone. cbn [existsb]. rewrite orb_false_r.
    unfold expires. now rewrite idleAlone_eq.
Qed.

(** ** The sweep, further *)

(** The sweep on a room that is the only row of its id. *)
Lemma sweep_row_decision : forall now db r,
  roomsWithId (room_id r) db = [r] ->
  roomsWithId (room_id r) (cleanupExpiredRooms now db)
  = [if expires now db r then set_room_ended now r else r].
Proof.
  intros now db r Hone.
  rewrite cleanupExpiredRooms_closed. unfold roomsWithId at 1. cbn [rooms].
  rewrite filter_map_commute.
  - fold (roomsWithId (room_id r) db). rewrite Hone. cbn [map].
    now rewrite (sweptIds_expires now db r Hone).
  - intros x. now destruct (sweptIds now db (roomsToExpire now db) x).
Qed.

(** X1.  For a room that is the only row of its id, the sweep decides
    by three conditions taken together: the room is waiting or active,
    was created more than ten minutes ago, and has at most one joined
    participant with the last activity more than five minutes ago.
    Then the row is ended at [now]; otherwise it is left as it is. *)
Theorem sweep_decides_each_room :
  forall (now : Z) (db : DB) (r : Room),
    roomsWithId (room_id r) db = [r] ->
    roomsWithId (room_id r) (cleanupExpiredRooms now db)
    = [if expires now db r then set_room_ended now r else r].
Proof.
  intros now db r Hone.
  rewrite cleanupExpiredRooms_closed. unfold roomsWithId at 1. cbn [rooms].
  rewrite filter_map_commute.
  - fold (roomsWithId (room_id r) db). rewrite Hone. cbn [map].
    f_equal. now rewrite (sweptIds_expires now db r Hone).
  - intros x. now destruct (sweptIds now db (roomsToExpire now db) x).
Qed.

Lemma sweep_decides_each_room_witness :
  roomsWithId "r2" lonelyDb = [lonelyRoom]
  /\ roomsWithId "r2" (cleanupExpiredRooms (11 * minute) lonelyDb)
     = [set_room_ended (11 * minute) lonelyRoom].
Proof.
  split; [reflexivity|].
  exact (sweep_decides_each_room (11 * minute) lonelyDb lonelyRoom eq_refl).
Defined.

(** X2.  Sweeping twice at the same instant is sweeping once. *)
Theorem sweep_is_idempotent :
  forall (now : Z) (db : DB),
    cleanupExpiredRooms now (cleanupExpiredRooms now db)
    = cleanupExpiredRooms now db.
Proof.
  intros now db.
  pose proof (cleanupExpiredRooms_closed now db) as H1.
  set (db1 := cleanupExpiredRooms now db) in *.
  assert (Hr : rooms db1
               = map (fun r => if sweptIds now db (roomsToExpire now db) r
                               then set_room_ended now r else r) (rooms db))
    by now rewrite H1.
  assert (Hp : room_participants db1 = room_participants db) by now rewrite H1.
  assert (Ha : room_activity db1 = room_activity db) by now rewrite H1.
  rewrite (cleanupExpiredRooms_closed now db1).
  etransitivity; [|symmetry; exact H1].
  f_equal; [|exact Hp|exact Ha].
  rewrite Hr at 1. rewrite map_map. apply map_ext_in. intros r Hin.
  destruct (sweptIds now db (roomsToExpire now db) r) eqn:Hsw.
  - now destruct (sweptIds now db1 (roomsToExpire now db1) (set_room_ended now r)).
  - rewrite sweptIds_false; [reflexivity|].
    intros x Hx Hid. rewrite Hp, Ha.
    destruct (idleAlone now (room_participants db) (room_activity db) x)
      eqn:Hidle; [exfalso|reflexivity].
    unfold roomsToExpire in Hx. apply filter_In in Hx. destruct Hx as [Hx Hsel].
    rewrite Hr in Hx.
    apply in_map_iff in Hx. destruct Hx as (x0 & Hx0 & Hin0).
    destruct (sweptIds now db (roomsToExpire now db) x0) eqn:H0; subst x.
    + simpl in Hsel. discriminate.
    + assert (Hs : sweptIds now db (roomsToExpire now db) r = true).
      { unfold sweptIds. apply existsb_exists. exists x0. split.
        - unfold roomsToExpire. apply filter_In. now split.
        - rewrite <- Hid, String.eqb_refl. exact Hidle. }
      congruence.
Qed.

Lemma expires_monotone : forall now now' db r,
  now <= now' -> expires now db r = true -> expires now' db r = true.
Proof.
  intros now now' db r Hle. unfold expires.
  rewrite !andb_true_iff, !Z.ltb_lt. intros [[Hst Hage] [Hn Hidle]].
  repeat split; auto; lia.
Qed.

(** X3.  Waiting never rescues a room: with the tables as they are, a
    room that a sweep at [now] ends is also ended by a sweep at any
    later instant. *)
Theorem sweep_is_monotone_in_time :
  forall (now now' : Z) (db : DB) (r : Room),
    now <= now' ->
    roomsWithId (room_id r) db = [r] ->
    room_status r <> ended ->
    roomsWithId (room_id r) (cleanupExpiredRooms now db)
    = [set_room_ended now r] ->
    roomsWithId (room_id r) (cleanupExpiredRooms now' db)
    = [set_room_ended now' r].
Proof.
  intros now now' db r Hle Hone Hst Hended.
  rewrite (sweep_row_decision now db r Hone) in Hended.
  rewrite (sweep_row_decision now' db r Hone).
  destruct (expires now db r) eqn:E.
  - now rewrite (expires_monotone now now' db r Hle E).
  - injection Hended as Hr. rewrite Hr in Hst. now elim Hst.
Qed.

Lemma sweep_is_monotone_in_time_witness :
  roomsWithId "r2" (cleanupExpiredRooms (11 * minute) lonelyDb)
  = [set_room_ended (11 * minute) lonelyRoom]
  /\ roomsWithId "r2" (cleanupExpiredRooms (30 * minute) lonelyDb)
     = [set_room_ended (30 * minute) lonelyRoom].
Proof.
  split; [reflexivity|].
  apply (sweep_is_monotone_in_time (11 * minute) (30 * minute) lonelyDb
           lonelyRoom).
  - discriminate.
  - reflexivity.
  - discriminate.
  - reflexivity.
Defined.

(** X4.  The sweep writes nothing but the end of rooms: the participant
    and activity tables are untouched, no room row is added, removed or
    reordered, and each row is either as before or the same row with
    status [ended] and [ended_at] set to [now]. *)
Theorem sweep_only_ends_rooms :
  forall (now : Z) (db : DB),
    room_participants (cleanupExpiredRooms now db) = room_participants db
    /\ room_activity (cleanupExpiredRooms now db) = room_activity db
    /\ Forall2 (fun r r' => r' = r \/ r' = set_room_ended now r)
               (rooms db) (rooms (cleanupExpiredRooms now db)).
Proof.
  intros now db. rewrite cleanupExpiredRooms_closed.
  cbn [rooms room_participants room_activity].
  split; [reflexivity|]. split; [reflexivity|].
  induction (rooms db) as [|r l IH]; [constructor|].
  cbn [map]. constructor; [|exact IH].
  destruct (sweptIds now db (roomsToExpire now db) r); auto.
Qed.

(** X5.  The sweep ends only rooms that their card already labels as
    expired by age. *)
Theorem swept_room_is_labelled_expired :
  forall (now : Z) (db : DB) (r : Room) (card : CardRoom),
    roomsWithId (room_id r) db = [r] ->
    room_status r <> ended ->
    roomsWithId (room_id r) (cleanupExpiredRooms now db)
    = [set_room_ended now r] ->
    card_created_at card = room_created_at r ->
    getExpirationStatus now card = Some "Expired (>10min)".
Proof.
  intros now db r card Hone Hst Hended Hcard.
  rewrite (sweep_row_decision now db r Hone) in Hended.
  destruct (expires now db r) eqn:E.
  - unfold expires in E. rewrite !andb_true_iff, Z.ltb_lt in E.
    destruct E as [[_ Hage] _].
    unfold getExpirationStatus. rewrite Hcard.
    assert (Hl : (10 * 60000 <=? now - room_created_at r) = true)
      by (apply Z.leb_le; lia).
    now rewrite Hl.
  - injection Hended as Hr. rewrite Hr in Hst. now elim Hst.
Qed.

Lemma swept_room_is_labelled_expired_witness :
  roomsWithId "r2" (cleanupExpiredRooms (11 * minute) lonelyDb)
  = [set_room_ended (11 * minute) lonelyRoom]
  /\ getExpirationStatus (11 * minute) lonelyCard = Some "Expired (>10min)".
Proof.
  split; [reflexivity|].
  apply (swept_room_is_labelled_expired (11 * minute) lonelyDb lonelyRoom
           lonelyCard).
  - reflexivity.
  - discriminate.
  - reflexivity.
  - reflexivity.
Defined.

(** ** Creating a room *)

Lemma filter_app_none : forall (A : Type) (p : A -> bool) (l l' : list A),
  filter p l = [] -> filter p (l ++ l') = filter p l'.
Proof. intros A p l l' H. now rewrite filter_app, H. Qed.

Lemma createRoom_result : forall uid g n pw rid now db,
  truthy uid = true -> truthy g = true -> truthy n = true ->
  fst (createRoom (Some uid) g n pw rid now db)
  = mkDB (rooms db ++ [createdRoom uid g n pw rid now])
         (room_participants db ++ [mkParticipant rid uid joined (Some now)])
         (room_activity db ++ [mkActivity rid (Some now) 1]).
Proof.
  intros uid g n pw rid now db Hu Hg Hn. unfold createRoom.
  cbn [truthy_opt]. now rewrite Hu, Hg, Hn.
Qed.

(** X6.  The life of a room nobody touches.  A room created at [t]
    under an id no table knows is still waiting, unchanged, after any
    sweep up to and including [t] plus ten minutes, and is ended by the
    first sweep after that. *)
Theorem untouched_room_lives_ten_minutes :
  forall (uid g n pw rid : string) (t now : Z) (db : DB),
    truthy uid = true -> truthy g = true -> truthy n = true ->
    freshRoomId rid db ->
    roomsWithId rid
      (cleanupExpiredRooms now (fst (createRoom (Some uid) g n pw rid t db)))
    = [if t + 10 * 60000 <? now
       then set_room_ended now (createdRoom uid g n pw rid t)
       else createdRoom uid g n pw rid t].
Proof.
  intros uid g n pw rid t now db Hu Hg Hn (Hr & Hp & Ha).
  rewrite (createRoom_result uid g n pw rid t db Hu Hg Hn).
  set (db1 := mkDB _ _ _).
  set (room := createdRoom uid g n pw rid t).
  assert (Hone : roomsWithId (room_id room) db1 = [room]).
  { unfold roomsWithId, db1. cbn [rooms room_id room createdRoom].
    fold (roomsWithId rid db) in *.
    unfold roomsWithId in Hr. rewrite (filter_app_none _ _ _ _ Hr).
    cbn [filter room_id]. now rewrite String.eqb_refl. }
  change rid with (room_id room) at 1.
  rewrite (sweep_row_decision now db1 room Hone).
  f_equal. unfold expires, joinedIn, lastActiveTime.
  cbn [room_status room createdRoom RoomStatus_eqb orb andb room_created_at
       room_id db1 room_participants room_activity].
  assert (Hj : filter (fun p => (rp_room_id p =? rid)%string
                                && ParticipantStatus_eqb (rp_status p) joined)
                      (room_participants db) = []).
  { induction (room_participants db) as [|p l IH]; [reflexivity|].
    cbn [filter] in *. destruct (rp_room_id p =? rid)%string; [discriminate|].
    cbn [andb]. now apply IH. }
  rewrite (filter_app_none _ _ _ _ Hj), (filter_app_none _ _ _ _ Ha).
  cbn [filter rp_room_id rp_status ra_room_id]. rewrite String.eqb_refl.
  cbn [andb ParticipantStatus_eqb List.length single ra_last_active Nat.leb].
  destruct (t + 10 * 60000 <? now) eqn:E.
  - apply Z.ltb_lt in E.
    assert (H1 : (t <? now - 10 * 60000) = true) by (apply Z.ltb_lt; lia).
    assert (H2 : (t <? now - 5 * 60000) = true) by (apply Z.ltb_lt; lia).
    now rewrite H1, H2.
  - apply Z.ltb_ge in E.
    assert (H1 : (t <? now - 10 * 60000) = false) by (apply Z.ltb_ge; lia).
    now rewrite H1.
Qed.

Lemma untouched_room_lives_ten_minutes_witness :
  freshRoomId "r9" lonelyDb
  /\ roomsWithId "r9"
       (cleanupExpiredRooms (10 * minute)
          (fst (createRoom (Some "alice") "g1" "chat" "" "r9" 0 lonelyDb)))
     = [createdRoom "alice" "g1" "chat" "" "r9" 0]
  /\ roomsWithId "r9"
       (cleanupExpiredRooms (10 * minute + 1)
          (fst (createRoom (Some "alice") "g1" "chat" "" "r9" 0 lonelyDb)))
     = [set_room_ended (10 * minute + 1)
          (createdRoom "alice" "g1" "chat" "" "r9" 0)].
Proof.
  assert (Hf : freshRoomId "r9" lonelyDb) by (repeat split).
  split; [exact Hf|]. split.
  - exact (untouched_room_lives_ten_minutes "alice" "g1" "chat" "" "r9" 0
             (10 * minute) lonelyDb eq_refl eq_refl eq_refl Hf).
  - exact (untouched_room_lives_ten_minutes "alice" "g1" "chat" "" "r9" 0
             (10 * minute + 1) lonelyDb eq_refl eq_refl eq_refl Hf).
Defined.

(** X7.  The password given at creation is the one [joinRoom] asks
    for.  For a room created under an id the table does not know,
    [joinRoom] lets a caller through exactly when no password was set
    (the empty string counts as none) or the caller supplies the same
    string; otherwise it reports "Incorrect password". *)
Theorem created_room_password_round_trip :
  forall (uid g n pw rid : string) (t : Z) (db : DB)
         (caller : option string) (attempt : option string),
    truthy uid = true -> truthy g = true -> truthy n = true ->
    roomsWithId rid db = [] ->
    snd (joinRoom caller rid attempt
           (fst (createRoom (Some uid) g n pw rid t db)))
    = if truthy pw && strict_neq pw attempt
      then [ConsoleError "Error joining room:"; ToastError "Incorrect password"]
      else [RouterPush ("/video-chat/" ++ rid)%string].
Proof.
  intros uid g n pw rid t db caller attempt Hu Hg Hn Hr.
  rewrite (createRoom_result uid g n pw rid t db Hu Hg Hn).
  unfold joinRoom. cbn [rooms].
  unfold roomsWithId in Hr. rewrite (filter_app_none _ _ _ _ Hr).
  unfold createdRoom. cbn [filter room_id]. rewrite String.eqb_refl.
  cbn [single room_password room_video_chat_url].
  destruct (truthy pw) eqn:Hpw; cbn [andb]; [|reflexivity].
  rewrite Hpw. cbn [andb]. now destruct (strict_neq pw attempt).
Qed.

Lemma created_room_password_round_trip_witness :
  snd (joinRoom (Some "bob") "r9" (Some "hunter2")
         (fst (createRoom (Some "alice") "g1" "chat" "hunter2" "r9" 0 lonelyDb)))
  = [RouterPush "/video-chat/r9"]
  /\ snd (joinRoom (Some "bob") "r9" (Some "")
            (fst (createRoom (Some "alice") "g1" "chat" "hunter2" "r9" 0 lonelyDb)))
     = [ConsoleError "Error joining room:"; ToastError "Incorrect password"].
Proof.
  split.
  - exact (created_room_password_round_trip "alice" "g1" "chat" "hunter2" "r9"
             0 lonelyDb (Some "bob") (Some "hunter2")
             eq_refl eq_refl eq_refl eq_refl).
  - exact (created_room_password_round_trip "alice" "g1" "chat" "hunter2" "r9"
             0 lonelyDb (Some "bob") (Some "")
             eq_refl eq_refl eq_refl eq_refl).
Defined.

(** ** Joining, leaving, kicking *)

Lemma db_eta : forall db,
  mkDB (rooms db) (room_participants db) (room_activity db) = db.
Proof. now intros []. Qed.

Lemma filter_update :
  forall (A : Type) (c : A -> bool) (f : A -> A) (l : list A),
    (forall x, c (f x) = c x) ->
    filter c (map (fun x => if c x then f x else x) l) = map f (filter c l).
Proof.
  intros A c f l Hc. induction l as [|x l IH]; [reflexivity|].
  cbn [map filter]. destruct (c x) eqn:E.
  - rewrite Hc, E. cbn [map]. now rewrite IH.
  - rewrite E. exact IH.
Qed.

(** X8.  [joinRoom] of the panel writes at most the status of the
    caller's own rows in that room: it leaves the rooms and the activity
    table (so [last_active] and [participant_count]) as they are, adds
    and removes no participant row, and each row is either as before or
    a row of the caller in that room, now joined. *)
Theorem joinRoom_writes_only_the_callers_rows :
  forall (u : option string) (rid : string) (pw : option string) (db : DB),
    rooms (fst (joinRoom u rid pw db)) = rooms db
    /\ room_activity (fst (joinRoom u rid pw db)) = room_activity db
    /\ Forall2 (fun p p' =>
                  p' = p
                  \/ (rp_room_id p = rid /\ u = Some (rp_user_id p)
                      /\ p' = set_rp_status joined p))
               (room_participants db)
               (room_participants (fst (joinRoom u rid pw db))).
Proof.
  intros u rid pw db.
  assert (Hsame : Forall2 (fun p p' =>
                    p' = p
                    \/ (rp_room_id p = rid /\ u = Some (rp_user_id p)
                        /\ p' = set_rp_status joined p))
                  (room_participants db) (room_participants db)).
  { induction (room_participants db); constructor; auto. }
  unfold joinRoom.
  destruct (single _) as [room|]; [|now repeat split].
  destruct (match room_password room with Some _ => _ | None => _ end);
    [now repeat split|].
  cbn [fst update_participants rooms room_activity room_participants].
  split; [reflexivity|]. split; [reflexivity|].
  clear Hsame. induction (room_participants db) as [|p l IH]; [constructor|].
  cbn [map]. constructor; [|exact IH].
  destruct (rp_room_id p =? rid)%string eqn:E1; [|now left].
  destruct u as [v|]; [|now left]. cbn [eq_user andb].
  destruct (rp_user_id p =? v)%string eqn:E2; [|now left].
  apply String.eqb_eq in E1, E2. right. subst. now repeat split.
Qed.

(** X9.  A user with no participant row passes the panel but not the
    page: given the right password (or a room without one), [joinRoom]
    of the panel writes nothing and still sends the user to the room,
    where [joinRoom] of the page refuses access. *)
Theorem uninvited_user_passes_panel_not_page :
  forall (uid rid : string) (pw : option string) (now : Z) (db : DB)
         (room : Room),
    single (roomsWithId rid db) = Some room ->
    room_password room = None \/ room_password room = pw ->
    rowsOf rid uid db = [] ->
    joinRoom (Some uid) rid pw db = (db, [RouterPush (room_video_chat_url room)])
    /\ pageJoinRoom (Some uid) rid now db
       = inr "You do not have access to this room".
Proof.
  intros uid rid pw now db room Hroom Hpw Hrows. split.
  - unfold joinRoom. unfold roomsWithId in Hroom. rewrite Hroom.
    assert (Hok : match room_password room with
                  | Some p => truthy p && strict_neq p pw
                  | None => false
                  end = false).
    { destruct Hpw as [-> | ->]; [reflexivity|].
      destruct pw as [p|]; [|reflexivity].
      cbn [strict_neq]. rewrite String.eqb_refl. apply andb_false_r. }
    rewrite Hok. f_equal. unfold update_participants. cbn [eq_user].
    unfold rowsOf in Hrows.
    rewrite (map_unchanged _ _ (set_rp_status joined) _ Hrows).
    apply db_eta.
  - unfold pageJoinRoom. unfold rowsOf in Hrows. now rewrite Hrows.
Qed.

Lemma uninvited_user_passes_panel_not_page_witness :
  rowsOf "r2" "mallory" lonelyDb = []
  /\ joinRoom (Some "mallory") "r2" None lonelyDb
     = (lonelyDb, [RouterPush "/video-chat/r2"])
  /\ pageJoinRoom (Some "mallory") "r2" minute lonelyDb
     = inr "You do not have access to this room".
Proof.
  split; [reflexivity|].
  exact (uninvited_user_passes_panel_not_page "mallory" "r2" None minute
           lonelyDb lonelyRoom eq_refl (or_introl eq_refl) eq_refl).
Defined.

Lemma joinedIn_after_busy : forall rid uid ps,
  joinedIn rid
    (map (fun p => if (rp_room_id p =? rid)%string
                      && eq_user (Some uid) (rp_user_id p)
                   then set_rp_status busy p else p) ps)
  = filter (fun p => (rp_room_id p =? rid)%string
                     && ParticipantStatus_eqb (rp_status p) joined
                     && negb (rp_user_id p =? uid)%string) ps.
Proof.
  intros rid uid ps. unfold joinedIn. cbn [eq_user].
  induction ps as [|p l IH]; [reflexivity|].
  cbn [map filter].
  destruct (rp_room_id p =? rid)%string eqn:E1;
    destruct (rp_user_id p =? uid)%string eqn:E2;
    destruct (ParticipantStatus_eqb (rp_status p) joined) eqn:E3;
    cbn [andb negb set_rp_status rp_room_id rp_status ParticipantStatus_eqb];
    rewrite ?E1, ?E3; cbn [andb]; now rewrite IH.
Qed.

(** X10.  A participant who is marked busy no longer keeps a room
    alive.  If a waiting or active room is older than ten minutes, its
    last activity older than five, and at most one participant other
    than the user is joined, then the sweep that follows the user's
    [markAsBusy] ends the room. *)
Theorem busy_participant_does_not_keep_room :
  forall (now : Z) (uid : string) (db : DB) (r : Room),
    roomsWithId (room_id r) db = [r] ->
    room_status r <> ended ->
    room_created_at r < now - 10 * 60000 ->
    lastActiveTime (room_activity db) r < now - 5 * 60000 ->
    (List.length
       (filter (fun p => (rp_room_id p =? room_id r)%string
                         && ParticipantStatus_eqb (rp_status p) joined
                         && negb (rp_user_id p =? uid)%string)
               (room_participants db)) <= 1)%nat ->
    roomsWithId (room_id r)
      (cleanupExpiredRooms now (fst (markAsBusy (Some uid) (room_id r) db)))
    = [set_room_ended now r].
Proof.
  intros now uid db r Hone Hst Hage Hidle Hcount.
  set (db1 := fst (markAsBusy (Some uid) (room_id r) db)).
  assert (Hone1 : roomsWithId (room_id r) db1 = [r]) by exact Hone.
  rewrite (sweep_row_decision now db1 r Hone1).
  assert (He : expires now db1 r = true).
  { unfold expires. rewrite !andb_true_iff. repeat split.
    - destruct (room_status r); try reflexivity. now elim Hst.
    - now apply Z.ltb_lt.
    - unfold db1. cbn [markAsBusy fst update_participants room_participants].
      rewrite joinedIn_after_busy. now apply Nat.leb_le.
    - now apply Z.ltb_lt. }
  now rewrite He.
Qed.

Lemma busy_participant_does_not_keep_room_witness :
  cleanupExpiredRooms (11 * minute)
    (mkDB [busyRoom]
          [mkParticipant "r1" "alice" joined (Some 0);
           mkParticipant "r1" "bob" joined (Some minute)]
          [mkActivity "r1" (Some 0) 2])
  = mkDB [busyRoom]
         [mkParticipant "r1" "alice" joined (Some 0);
          mkParticipant "r1" "bob" joined (Some minute)]
         [mkActivity "r1" (Some 0) 2]
  /\ roomsWithId "r1"
       (cleanupExpiredRooms (11 * minute)
          (fst (markAsBusy (Some "bob") "r1"
                  (mkDB [busyRoom]
                        [mkParticipant "r1" "alice" joined (Some 0);
                         mkParticipant "r1" "bob" joined (Some minute)]
                        [mkActivity "r1" (Some 0) 2]))))
     = [set_room_ended (11 * minute) busyRoom].
Proof.
  split; [reflexivity|].
  apply (busy_participant_does_not_keep_room (11 * minute) "bob"
           (mkDB [busyRoom]
                 [mkParticipant "r1" "alice" joined (Some 0);
                  mkParticipant "r1" "bob" joined (Some minute)]
                 [mkActivity "r1" (Some 0) 2]) busyRoom).
  - reflexivity.
  - discriminate.
  - reflexivity.
  - reflexivity.
  - apply Nat.leb_le. reflexivity.
Defined.

(** X11.  A kick is not a ban.  When the host kicks a user who has one
    participant row in the room, the row becomes [kicked]; when that
    user opens the page of the room again, [joinRoom] of the page
    accepts and the row is [joined] again, as of then. *)
Theorem kicked_user_can_rejoin :
  forall (rid uid : string) (now : Z) (db : DB) (p : RoomParticipant),
    rowsOf rid uid db = [p] ->
    rowsOf rid uid (fst (handleKickParticipant true rid uid db))
    = [set_rp_status kicked p]
    /\ exists db',
         pageJoinRoom (Some uid) rid now
           (fst (handleKickParticipant true rid uid db)) = inl db'
         /\ rowsOf rid uid db' = [set_rp_joined now p].
Proof.
  intros rid uid now db p Hrow.
  assert (Hk : rowsOf rid uid (fst (handleKickParticipant true rid uid db))
               = [set_rp_status kicked p]).
  { unfold rowsOf. cbn [handleKickParticipant negb fst update_participants
                        room_participants eq_user].
    rewrite filter_update by reflexivity.
    unfold rowsOf in Hrow. now rewrite Hrow. }
  split; [exact Hk|].
  unfold pageJoinRoom. unfold rowsOf in Hk. rewrite Hk. cbn [single].
  eexists. split; [reflexivity|].
  unfold rowsOf. cbn [update_participants update_rooms room_participants eq_user].
  rewrite filter_update by reflexivity.
  now rewrite Hk.
Qed.

Lemma kicked_user_can_rejoin_witness :
  rowsOf "r1" "bob" busyDb = [mkParticipant "r1" "bob" joined (Some minute)]
  /\ rowsOf "r1" "bob" (fst (handleKickParticipant true "r1" "bob" busyDb))
     = [mkParticipant "r1" "bob" kicked (Some minute)]
  /\ exists db',
       pageJoinRoom (Some "bob") "r1" (12 * minute)
         (fst (handleKickParticipant true "r1" "bob" busyDb)) = inl db'
       /\ rowsOf "r1" "bob" db'
          = [mkParticipant "r1" "bob" joined (Some (12 * minute))].
Proof.
  split; [reflexivity|].
  exact (kicked_user_can_rejoin "r1" "bob" (12 * minute) busyDb
           (mkParticipant "r1" "bob" joined (Some minute)) eq_refl).
Defined.

(** X12.  An invitation joins without the password.  For a room that
    exists, accepting the invitation leaves the store exactly as
    [joinRoom] of the panel does when it is given the room's own
    password, and sends the user to the room, whatever the password
    and the status of the room. *)
Theorem invitation_joins_without_password :
  forall (uid rid : string) (note : NotificationRow) (db : DB) (room : Room),
    n_room_id note = Some rid ->
    truthy rid = true -> truthy uid = true ->
    single (roomsWithId rid db) = Some room ->
    fst (handleRoomInvite (Some uid) note true db)
    = fst (joinRoom (Some uid) rid (room_password room) db)
    /\ snd (handleRoomInvite (Some uid) note true db)
       = RouterPush (room_video_chat_url room)
         :: [ToastSuccess "Joined room successfully"]
    /\ snd (joinRoom (Some uid) rid (room_password room) db)
       = [RouterPush (room_video_chat_url room)].
Proof.
  intros uid rid note db room Hnote Hrid Huid Hroom.
  unfold handleRoomInvite, joinRoom. rewrite Hnote, Hrid, Huid, Hroom.
  unfold roomsWithId in Hroom. rewrite Hroom. cbn [negb orb].
  assert (Hok : match room_password room with
                | Some p => truthy p && strict_neq p (room_password room)
                | None => false
                end = false).
  { destruct (room_password room) as [p|]; [|reflexivity].
    cbn [strict_neq]. rewrite String.eqb_refl. apply andb_false_r. }
  rewrite Hok. repeat split.
Qed.

Lemma invitation_joins_without_password_witness :
  room_password lockedRoom = Some "s3cret"
  /\ fst (handleRoomInvite (Some "bob")
            (mkNote "n1" "bob" room_invite "invites you" "alice" false
                    (Some "r4")) true lockedDb)
     = fst (joinRoom (Some "bob") "r4" (Some "s3cret") lockedDb).
Proof.
  split; [reflexivity|].
  destruct (invitation_joins_without_password "bob" "r4"
              (mkNote "n1" "bob" room_invite "invites you" "alice" false
                      (Some "r4")) lockedDb lockedRoom
              eq_refl eq_refl eq_refl eq_refl) as (H & _).
  exact H.
Defined.

(** ** The label of a card *)

Ltac leb_cases :=
  repeat match goal with
         | H : context [Z.leb ?a ?b] |- _ => destruct (Z.leb_spec a b)
         | |- context [Z.leb ?a ?b] => destruct (Z.leb_spec a b)
         end.

(** X13.  The label of a card only moves toward expiry as time passes:
    a card that carries a label keeps carrying one, and a card labelled
    expired (by age or for inactivity) stays labelled expired. *)
Theorem card_label_only_moves_toward_expiry :
  forall (now now' : Z) (card : CardRoom),
    now <= now' ->
    (getExpirationStatus now card <> None ->
     getExpirationStatus now' card <> None)
    /\ (isExpiredLabel (getExpirationStatus now card) = true ->
        isExpiredLabel (getExpirationStatus now' card) = true).
Proof.
  intros now now' card Hle. unfold getExpirationStatus.
  destruct (card_last_active card) as [t|]; split; intros H;
    leb_cases; cbn [andb isExpiredLabel] in *;
    try discriminate; try reflexivity; try lia; try now elim H.
Qed.

Lemma card_label_only_moves_toward_expiry_witness :
  getExpirationStatus (6 * minute) lonelyCard = Some "Expired (inactive)"
  /\ isExpiredLabel (getExpirationStatus (20 * minute) lonelyCard) = true.
Proof.
  split; [reflexivity|].
  destruct (card_label_only_moves_toward_expiry (6 * minute) (20 * minute)
              lonelyCard) as (_ & H).
  - discriminate.
  - apply H. reflexivity.
Defined.

(** ** The participant list of the page *)

Lemma find_unique : forall (u : string) (ps : list Participant) (p q : Participant),
  NoDup (map part_id ps) ->
  find (fun x => (part_id x =? u)%string) ps = Some p ->
  In q ps -> part_id q = u -> q = p.
Proof.
  intros u ps p q. induction ps as [|x l IH]; intros Hnd Hfind Hin Hq.
  - destruct Hin.
  - cbn [map] in Hnd. inversion Hnd as [|? ? Hnotin Hnd']; subst.
    cbn [find] in Hfind.
    destruct (part_id x =? part_id q)%string eqn:E.
    + injection Hfind as <-. destruct Hin as [->|Hin]; [reflexivity|].
      apply String.eqb_eq in E. exfalso. apply Hnotin. rewrite E.
      now apply in_map.
    + destruct Hin as [->|Hin].
      * now rewrite String.eqb_refl in E.
      * now apply IH.
Qed.

Lemma find_after_update : forall (u : string) (f : Participant -> Participant)
                                 (ps : list Participant),
  (forall x, part_id (f x) = part_id x) ->
  find (fun x => (part_id x =? u)%string)
       (map (fun x => if (part_id x =? u)%string then f x else x) ps)
  = option_map f (find (fun x => (part_id x =? u)%string) ps).
Proof.
  intros u f ps Hf. induction ps as [|x l IH]; [reflexivity|].
  cbn [map find]. destruct (part_id x =? u)%string eqn:E.
  - now rewrite Hf, E.
  - now rewrite E.
Qed.

(** X14.  Muting is undone by muting again.  For the host, when the
    ids of the listed participants are distinct, two calls of
    [handleMuteParticipant] for the same user give back the list as it
    was; the first call changes the audio flag of that user only. *)
Theorem mute_twice_restores_list :
  forall (userId : string) (participants : list Participant),
    NoDup (map part_id participants) ->
    fst (handleMuteParticipant true userId
           (fst (handleMuteParticipant true userId participants)))
    = participants
    /\ Forall2 (fun p p' =>
                  p' = p
                  \/ (part_id p = userId
                      /\ p' = setAudioOn (negb (part_isAudioOn p)) p))
               participants
               (fst (handleMuteParticipant true userId participants)).
Proof.
  intros u ps Hnd. unfold handleMuteParticipant. cbn [negb].
  destruct (find (fun p => (part_id p =? u)%string) ps) as [p|] eqn:Hfind.
  - cbn [fst]. split.
    + rewrite find_after_update by reflexivity. rewrite Hfind.
      cbn [option_map fst]. rewrite map_map.
      rewrite <- (map_id ps) at 2. apply map_ext_in. intros q Hin.
      destruct (part_id q =? u)%string eqn:E.
      * cbn [setAudioOn part_id part_isAudioOn]. rewrite E.
        apply String.eqb_eq in E.
        rewrite (find_unique u ps p q Hnd Hfind Hin E).
        rewrite negb_involutive. now destruct p.
      * now rewrite E.
    + assert (Hall : forall q, In q ps -> part_id q = u -> q = p)
        by (intros q Hin Hq; exact (find_unique u ps p q Hnd Hfind Hin Hq)).
      clear Hfind Hnd. induction ps as [|q l IH]; [constructor|].
      cbn [map]. constructor.
      * destruct (part_id q =? u)%string eqn:E; [|now left].
        apply String.eqb_eq in E. right. split; [exact E|].
        now rewrite (Hall q (or_introl eq_refl) E).
      * apply IH. intros q' Hin. apply Hall. now right.
  - cbn [fst]. rewrite Hfind. cbn [fst]. split; [reflexivity|].
    clear. induction ps; constructor; auto.
Qed.

Lemma mute_twice_restores_list_witness :
  fst (handleMuteParticipant true "bob"
         [mkPart "alice" "alice" None None false true true;
          mkPart "bob" "bob" None None false true true])
  = [mkPart "alice" "alice" None None false true true;
     mkPart "bob" "bob" None None false false true]
  /\ fst (handleMuteParticipant true "bob"
            (fst (handleMuteParticipant true "bob"
                    [mkPart "alice" "alice" None None false true true;
                     mkPart "bob" "bob" None None false true true])))
     = [mkPart "alice" "alice" None None false true true;
        mkPart "bob" "bob" None None false true true].
Proof.
  split; [reflexivity|].
  destruct (mute_twice_restores_list "bob"
              [mkPart "alice" "alice" None None false true true;
               mkPart "bob" "bob" None None false true true]) as (H & _).
  - repeat constructor; simpl; intuition discriminate.
  - exact H.
Defined.

(** X15.  The grid of the page is never taller than it is wide for up
    to sixteen participants, and never loses columns as participants
    are added. *)
Theorem grid_is_wide_enough :
  forall (count count' : Z),
    (0 <= count <= 16 ->
     count <= columnsOf (getGridColumns count) * columnsOf (getGridColumns count))
    /\ (count <= count' ->
        columnsOf (getGridColumns count) <= columnsOf (getGridColumns count')).
Proof.
  intros count count'. unfold getGridColumns.
  split; intros H; leb_cases; cbn; lia.
Qed.

Lemma grid_is_wide_enough_witness :
  getGridColumns 5 = "grid-cols-3"
  /\ 5 <= columnsOf (getGridColumns 5) * columnsOf (getGridColumns 5).
Proof.
  split; [reflexivity|].
  destruct (grid_is_wide_enough 5 5) as (H & _). apply H. lia.
Defined.

(** ** The peer session, further *)

Lemma onSignal_without_connection : forall b s m,
  peerConnectionRef s = None -> onSignal b s m = (s, []).
Proof.
  intros b s [offer from | answer from | candidate from] Hpc; simpl;
    unfold handleOffer, handleAnswer, handleIceCandidate; now rewrite Hpc.
Qed.

(** X16.  After [endChat] the session is Idle and deaf: whatever relayed
    messages arrive, in whatever number, the state stays as [endChat]
    left it and nothing is emitted. *)
Theorem signals_after_endChat_are_dropped :
  forall (b : Browser) (s : VideoChat) (ms : list Signal),
    isIdle (fst (endChat s)) = true
    /\ onSignals b (fst (endChat s)) ms = (fst (endChat s), []).
Proof.
  intros b s ms. split; [reflexivity|].
  assert (Hpc : peerConnectionRef (fst (endChat s)) = None) by reflexivity.
  revert Hpc. generalize (fst (endChat s)) as s'. intros s' Hpc.
  induction ms as [|m ms IH]; [reflexivity|].
  cbn [onSignals]. rewrite (onSignal_without_connection b s' m Hpc).
  now rewrite IH.
Qed.

(** X17.  On a match, with a browser that accepts the set-up, the
    client starts from a fresh connection bound to the new partner,
    adds every track of the local stream in order, and only then, if it
    is the initiator, creates the offer, applies it locally and sends
    it to the partner; the other side makes no further call and sends
    nothing. *)
Theorem match_found_adds_tracks_then_offers :
  forall (b : Browser) (s : VideoChat) (me partner : string)
         (offer : SessionDescription),
    cooperative b ->
    socket_id s = Some me -> truthy me = true ->
    createOffer_result b
      (mkPc partner (map (fun t => (CallAddTrack t, true))
                         (match localStreamRef s with
                          | Some t => t
                          | None => []
                          end)))
    = Some offer ->
    peerConnectionRef (fst (handleMatchFound b s partner))
    = Some (mkPc partner
              (map (fun t => (CallAddTrack t, true))
                   (match localStreamRef s with Some t => t | None => [] end)
               ++ if js_lt me partner
                  then [(CallCreateOffer, true);
                        (CallSetLocalDescription offer, true)]
                  else []))
    /\ snd (handleMatchFound b s partner)
       = if js_lt me partner then [Emit (EvOffer offer partner)] else [].
Proof.
  intros b s me partner offer Hb Hid Hme Hoffer.
  unfold handleMatchFound. rewrite Hid, Hme. cbn [negb].
  pose proof Hb as (Hc & _). rewrite Hc.
  rewrite (setupConnection_calls b me partner (localStreamRef s) offer Hb Hoffer).
  destruct (js_lt me partner); cbn [fst snd]; split; try reflexivity.
  cbn [setPeerConnection peerConnectionRef]. now rewrite app_nil_r.
Qed.

Lemma match_found_adds_tracks_then_offers_witness :
  peerConnectionRef (fst (handleMatchFound referenceBrowser (searching "abc") "xyz"))
  = Some (mkPc "xyz"
            (map (fun t => (CallAddTrack t, true)) camera
             ++ [(CallCreateOffer, true);
                 (CallSetLocalDescription (mkSdp SdpOffer "v=0 o=offer"), true)]))
  /\ snd (handleMatchFound referenceBrowser (searching "abc") "xyz")
     = [Emit (EvOffer (mkSdp SdpOffer "v=0 o=offer") "xyz")].
Proof.
  assert (Hc : cooperative referenceBrowser).
  { repeat split; intros; simpl; congruence. }
  exact (match_found_adds_tracks_then_offers referenceBrowser (searching "abc")
           "abc" "xyz" (mkSdp SdpOffer "v=0 o=offer") Hc eq_refl eq_refl eq_refl).
Defined.

(** X18.  An answer is sent only after the browser has accepted the
    offer, created the answer and applied it locally, in that order on
    the current connection; then exactly one answer is sent, and it is
    addressed to the sender the relay named for the offer. *)
Theorem answer_follows_three_accepted_calls :
  forall (b : Browser) (s : VideoChat) (offer : SessionDescription)
         (from : string) (pc : RTCPeerConnection),
    peerConnectionRef s = Some pc ->
    emitsAnswer (snd (handleOffer b s offer from)) = true ->
    exists answer,
      snd (handleOffer b s offer from) = [Emit (EvAnswer answer from)]
      /\ callsOf (fst (handleOffer b s offer from))
         = Some (pc_calls pc
                 ++ [(CallSetRemoteDescription offer, true);
                     (CallCreateAnswer, true);
                     (CallSetLocalDescription answer, true)]).
Proof.
  intros b s offer from pc Hpc. unfold handleOffer. rewrite Hpc.
  unfold runHandler, bind, pcSetRemoteDescription, pcCreateAnswer,
    pcSetLocalDescription, perform, invoke, callsOf. cbn [fst snd].
  destruct (setRemoteDescription_ok b pc offer); [|discriminate].
  destruct (createAnswer_result b _) as [[a|]|]; cbn [fst snd];
    try discriminate.
  destruct (setLocalDescription_ok b _ a); cbn [fst snd]; [|discriminate].
  intros _. exists a. split; [reflexivity|].
  cbn [setPeerConnection peerConnectionRef option_map record_call pc_calls].
  now rewrite <- !app_assoc.
Qed.

Lemma answer_follows_three_accepted_calls_witness :
  emitsAnswer (snd (handleOffer referenceBrowser answerer offerOfAbc "abc")) = true
  /\ exists answer,
       snd (handleOffer referenceBrowser answerer offerOfAbc "abc")
       = [Emit (EvAnswer answer "abc")]
       /\ callsOf (fst (handleOffer referenceBrowser answerer offerOfAbc "abc"))
          = Some ([(CallAddTrack "audio", true); (CallAddTrack "video", true)]
                  ++ [(CallSetRemoteDescription offerOfAbc, true);
                      (CallCreateAnswer, true);
                      (CallSetLocalDescription answer, true)]).
Proof.
  split; [reflexivity|].
  exact (answer_follows_three_accepted_calls referenceBrowser answerer
           offerOfAbc "abc"
           (mkPc "abc" [(CallAddTrack "audio", true); (CallAddTrack "video", true)])
           eq_refl eq_refl).
Defined.

Lemma remoteDescription_after : forall to calls d rest,
  (forall e, In e rest ->
             match e with (CallSetRemoteDescription _, true) => False | _ => True end) ->
  remoteDescription (mkPc to (calls ++ (CallSetRemoteDescription d, true) :: rest))
  = Some d.
Proof.
  intros to calls d rest Hrest. unfold remoteDescription. cbn [pc_calls].
  rewrite fold_left_app. cbn [fold_left].
  generalize (fold_left
                (fun acc e =>
                   match e with
                   | (CallSetRemoteDescription d0, true) => Some d0
                   | _ => acc
                   end) calls None).
  intros _. induction rest as [|e rest IH]; [reflexivity|].
  cbn [fold_left].
  assert (He := Hrest e (or_introl eq_refl)).
  destruct e as [[] []]; try (apply IH; intros; apply Hrest; now right);
    now elim He.
Qed.

(** X19.  A negotiation between two matched clients completes.  With
    browsers on the good path, the client with the smaller identifier
    sends one offer to the other, who sends nothing on the match, takes
    the offer as its remote description and sends back one answer,
    which the first client takes as its remote description. *)
Theorem negotiation_completes :
  forall (bA bB : Browser) (sA sB : VideoChat) (idA idB : string),
    obliging bA -> obliging bB ->
    socket_id sA = Some idA -> socket_id sB = Some idB ->
    truthy idA = true -> truthy idB = true ->
    js_lt idA idB = true ->
    exists offer answer,
      snd (handleMatchFound bA sA idB) = [Emit (EvOffer offer idB)]
      /\ snd (handleMatchFound bB sB idA) = []
      /\ snd (onSignal bB (fst (handleMatchFound bB sB idA)) (SigOffer offer idA))
         = [Emit (EvAnswer answer idA)]
      /\ option_map remoteDescription
           (peerConnectionRef
              (fst (onSignal bB (fst (handleMatchFound bB sB idA))
                      (SigOffer offer idA))))
         = Some (Some offer)
      /\ snd (onSignal bA (fst (handleMatchFound bA sA idB)) (SigAnswer answer idB))
         = []
      /\ option_map remoteDescription
           (peerConnectionRef
              (fst (onSignal bA (fst (handleMatchFound bA sA idB))
                      (SigAnswer answer idB))))
         = Some (Some answer).
Proof.
  intros bA bB sA sB idA idB (HcA & HrA & HaA) (HcB & HrB & HaB)
         HA HB HtA HtB Hlt.
  pose proof HcA as (_ & _ & HoA & _). pose proof HcB as (_ & _ & HoB & HlB).
  destruct (createOffer_result bA
              (mkPc idB (map (fun t => (CallAddTrack t, true))
                             (match localStreamRef sA with
                              | Some t => t
                              | None => []
                              end))))
    as [offer|] eqn:EA; [|now elim (HoA _ EA)].
  destruct (createOffer_result bB
              (mkPc idA (map (fun t => (CallAddTrack t, true))
                             (match localStreamRef sB with
                              | Some t => t
                              | None => []
                              end))))
    as [offerB|] eqn:EB; [|now elim (HoB _ EB)].
  destruct (matchFound_cooperative bA sA idA idB offer HcA HA HtA EA)
    as (HpcA & HoutA).
  destruct (matchFound_cooperative bB sB idB idA offerB HcB HB HtB EB)
    as (HpcB & HoutB).
  rewrite Hlt in HpcA, HoutA.
  rewrite (js_lt_asym idA idB Hlt) in HpcB, HoutB.
  match type of HpcA with _ = Some ?pc => set (pcA := pc) in * end.
  match type of HpcB with _ = Some ?pc => set (pcB := pc) in * end.
  destruct (HaB (record_call (CallSetRemoteDescription offer) true pcB))
    as (answer & Hans).
  exists offer, answer.
  split; [exact HoutA|]. split; [exact HoutB|].
  assert (HB2 : onSignal bB (fst (handleMatchFound bB sB idA)) (SigOffer offer idA)
                = (setPeerConnection
                     (Some (mkPc (pc_signal_to pcB)
                              (pc_calls pcB
                               ++ [(CallSetRemoteDescription offer, true);
                                   (CallCreateAnswer, true);
                                   (CallSetLocalDescription answer, true)])))
                     (fst (handleMatchFound bB sB idA)),
                   [Emit (EvAnswer answer idA)])).
  { cbn [onSignal]. unfold handleOffer. rewrite HpcB.
    unfold runHandler, bind, pcSetRemoteDescription, pcCreateAnswer,
      pcSetLocalDescription, perform, invoke. cbn [fst snd].
    rewrite HrB. cbn [fst snd]. rewrite Hans. cbn [fst snd]. rewrite HlB.
    unfold record_call. cbn [pc_signal_to pc_calls app].
    now rewrite <- !app_assoc. }
  assert (HA2 : onSignal bA (fst (handleMatchFound bA sA idB)) (SigAnswer answer idB)
                = (setPeerConnection
                     (Some (mkPc (pc_signal_to pcA)
                              (pc_calls pcA
                               ++ [(CallSetRemoteDescription answer, true)])))
                     (fst (handleMatchFound bA sA idB)),
                   [])).
  { cbn [onSignal]. unfold handleAnswer. rewrite HpcA.
    unfold runHandler, pcSetRemoteDescription, invoke. cbn [fst snd].
    now rewrite HrA. }
  rewrite HB2, HA2. cbn [fst snd setPeerConnection peerConnectionRef option_map].
  split; [reflexivity|]. split.
  - f_equal. apply remoteDescription_after.
    intros e [<-|[<-|[]]]; exact I.
  - split; [reflexivity|]. f_equal. apply remoteDescription_after.
    intros e [].
Qed.

Lemma negotiation_completes_witness :
  js_lt "abc" "xyz" = true
  /\ exists offer answer,
       snd (handleMatchFound obligingBrowser (searching "abc") "xyz")
       = [Emit (EvOffer offer "xyz")]
       /\ snd (handleMatchFound obligingBrowser (searching "xyz") "abc") = []
       /\ snd (onSignal obligingBrowser
                 (fst (handleMatchFound obligingBrowser (searching "xyz") "abc"))
                 (SigOffer offer "abc"))
          = [Emit (EvAnswer answer "abc")]
       /\ option_map remoteDescription
            (peerConnectionRef
               (fst (onSignal obligingBrowser
                       (fst (handleMatchFound obligingBrowser (searching "xyz") "abc"))
                       (SigOffer offer "abc"))))
          = Some (Some offer)
       /\ snd (onSignal obligingBrowser
                 (fst (handleMatchFound obligingBrowser (searching "abc") "xyz"))
                 (SigAnswer answer "xyz"))
          = []
       /\ option_map remoteDescription
            (peerConnectionRef
               (fst (onSignal obligingBrowser
                       (fst (handleMatchFound obligingBrowser (searching "abc") "xyz"))
                       (SigAnswer answer "xyz"))))
          = Some (Some answer).
Proof.
  split; [reflexivity|].
  assert (Ho : obliging obligingBrowser).
  { split; [|split].
    - repeat split; intros; simpl; congruence.
    - reflexivity.
    - intros pc. eexists. reflexivity. }
  exact (negotiation_completes obligingBrowser obligingBrowser
           (searching "abc") (searching "xyz") "abc" "xyz"
           Ho Ho eq_refl eq_refl eq_refl eq_refl eq_refl).
Defined.

(** ** Friend requests *)

Lemma linking_sym : forall a b fs, linking a b fs = linking b a fs.
Proof.
  intros a b fs. unfold linking. apply filter_ext. intros f. apply orb_comm.
Qed.

Lemma linking_after_accept : forall a b fs,
  linking a b
    (map (fun f => if (f_user_id f =? a)%string && (f_friend_id f =? b)%string
                   then set_f_status accepted f else f) fs)
  = map (fun f => if (f_user_id f =? a)%string && (f_friend_id f =? b)%string
                  then set_f_status accepted f else f)
        (linking a b fs).
Proof.
  intros a b fs. unfold linking. apply filter_map_commute.
  intros f.
  destruct ((f_user_id f =? a)%string && (f_friend_id f =? b)%string) eqn:E;
    cbn [set_f_status f_user_id f_friend_id]; now rewrite E.
Qed.

(** X20.  A friend request that is accepted makes the friendship
    mutual.  When no row links two users, a request from the first to
    the second followed by the second's acceptance leaves exactly two
    rows between them, one in each direction, both accepted, and the
    notification of the request is marked read. *)
Theorem accepted_request_is_mutual :
  forall (a b : AuthUser) (newId : string) (db : Social),
    linking (user_id a) (user_id b) (friends db) = [] ->
    linking (user_id a) (user_id b)
      (friends (fst (handleFriendRequest (Some b) (user_id a) true
                       (fst (sendFriendRequest (Some a) (user_id b) newId db)))))
    = [mkFriend (user_id a) (user_id b) accepted;
       mkFriend (user_id b) (user_id a) accepted]
    /\ In (mkNote newId (user_id b) friend_request
                  (user_username a ++ " wants to be friends")%string
                  (user_id a) true None)
          (notifications
             (fst (handleFriendRequest (Some b) (user_id a) true
                     (fst (sendFriendRequest (Some a) (user_id b) newId db))))).
Proof.
  intros a b newId db Hnone.
  unfold sendFriendRequest. rewrite Hnone. cbn [single fst].
  unfold handleFriendRequest. cbn [fst friends notifications].
  split.
  - rewrite map_app. cbn [map f_user_id f_friend_id].
    rewrite !String.eqb_refl. cbn [andb set_f_status f_user_id f_friend_id].
    unfold linking at 1. rewrite !filter_app.
    fold (linking (user_id a) (user_id b)
            (map (fun f => if (f_user_id f =? user_id a)%string
                              && (f_friend_id f =? user_id b)%string
                           then set_f_status accepted f else f) (friends db))).
    rewrite linking_after_accept, Hnone.
    cbn [map filter f_user_id f_friend_id app].
    rewrite !String.eqb_refl. cbn [andb orb].
    now rewrite orb_true_r.
  - rewrite map_app. apply in_or_app. right.
    cbn [map n_from_user_id n_user_id]. rewrite !String.eqb_refl.
    cbn [andb set_n_read n_id n_user_id n_type n_content n_from_user_id n_room_id].
    now left.
Qed.

Lemma accepted_request_is_mutual_witness :
  linking "u1" "u2"
    (friends (fst (handleFriendRequest (Some (mkUser "u2" "bob")) "u1" true
                     (fst (sendFriendRequest (Some (mkUser "u1" "alice")) "u2" "n1"
                             (mkSocial [] []))))))
  = [mkFriend "u1" "u2" accepted; mkFriend "u2" "u1" accepted].
Proof.
  destruct (accepted_request_is_mutual (mkUser "u1" "alice") (mkUser "u2" "bob")
              "n1" (mkSocial [] []) eq_refl) as (H & _).
  exact H.
Defined.

(** X21.  A declined request stays on file and blocks both sides.
    When no row links two users, a request from the first to the second
    that the second declines leaves the pending row in place; after
    that a new request from either of the two to the other is refused
    as already sent and writes nothing. *)
Theorem declined_request_blocks_both_sides :
  forall (a b : AuthUser) (newId id1 id2 : string) (db : Social),
    linking (user_id a) (user_id b) (friends db) = [] ->
    linking (user_id a) (user_id b)
      (friends (fst (handleFriendRequest (Some b) (user_id a) false
                       (fst (sendFriendRequest (Some a) (user_id b) newId db)))))
    = [mkFriend (user_id a) (user_id b) pending]
    /\ sendFriendRequest (Some a) (user_id b) id1
         (fst (handleFriendRequest (Some b) (user_id a) false
                 (fst (sendFriendRequest (Some a) (user_id b) newId db))))
       = (fst (handleFriendRequest (Some b) (user_id a) false
                 (fst (sendFriendRequest (Some a) (user_id b) newId db))),
          [ToastError "Friend request already sent or you are already friends"])
    /\ sendFriendRequest (Some b) (user_id a) id2
         (fst (handleFriendRequest (Some b) (user_id a) false
                 (fst (sendFriendRequest (Some a) (user_id b) newId db))))
       = (fst (handleFriendRequest (Some b) (user_id a) false
                 (fst (sendFriendRequest (Some a) (user_id b) newId db))),
          [ToastError "Friend request already sent or you are already friends"]).
Proof.
  intros a b newId id1 id2 db Hnone.
  set (db2 := fst (handleFriendRequest (Some b) (user_id a) false
                     (fst (sendFriendRequest (Some a) (user_id b) newId db)))).
  assert (Hlink : linking (user_id a) (user_id b) (friends db2)
                  = [mkFriend (user_id a) (user_id b) pending]).
  { unfold db2, sendFriendRequest. rewrite Hnone. cbn [single fst].
    unfold handleFriendRequest. cbn [fst friends].
    unfold linking. rewrite filter_app. fold (linking (user_id a) (user_id b) (friends db)).
    rewrite Hnone. cbn [filter f_user_id f_friend_id app].
    now rewrite !String.eqb_refl. }
  split; [exact Hlink|]. split.
  - unfold sendFriendRequest at 1. now rewrite Hlink.
  - unfold sendFriendRequest at 1. rewrite linking_sym. now rewrite Hlink.
Qed.

Lemma declined_request_blocks_both_sides_witness :
  sendFriendRequest (Some (mkUser "u2" "bob")) "u1" "n3"
    (fst (handleFriendRequest (Some (mkUser "u2" "bob")) "u1" false
            (fst (sendFriendRequest (Some (mkUser "u1" "alice")) "u2" "n1"
                    (mkSocial [] [])))))
  = (fst (handleFriendRequest (Some (mkUser "u2" "bob")) "u1" false
            (fst (sendFriendRequest (Some (mkUser "u1" "alice")) "u2" "n1"
                    (mkSocial [] [])))),
     [ToastError "Friend request already sent or you are already friends"]).
Proof.
  destruct (declined_request_blocks_both_sides (mkUser "u1" "alice")
              (mkUser "u2" "bob") "n1" "n2" "n3" (mkSocial [] []) eq_refl)
    as (_ & _ & H).
  exact H.
Defined.

(** ** What no operation does *)

Lemma update_rooms_keeps : forall f rid db,
  (forall r, room_id (f r) = room_id r
             /\ room_created_at (f r) = room_created_at r
             /\ room_password (f r) = room_password r
             /\ room_host_id (f r) = room_host_id r) ->
  map room_id (rooms (update_rooms f rid db)) = map room_id (rooms db)
  /\ map room_created_at (rooms (update_rooms f rid db))
     = map room_created_at (rooms db)
  /\ map room_password (rooms (update_rooms f rid db))
     = map room_password (rooms db)
  /\ map room_host_id (rooms (update_rooms f rid db))
     = map room_host_id (rooms db).
Proof.
  intros f rid db Hf. cbn [update_rooms rooms]. rewrite !map_map.
  repeat split; apply map_ext; intros r;
    destruct (room_id r =? rid)%string; try reflexivity; apply Hf.
Qed.

Lemma update_participants_keeps : forall f rid u db,
  (forall p, rp_room_id (f p) = rp_room_id p /\ rp_user_id (f p) = rp_user_id p) ->
  map rp_room_id (room_participants (update_participants f rid u db))
  = map rp_room_id (room_participants db)
  /\ map rp_user_id (room_participants (update_participants f rid u db))
     = map rp_user_id (room_participants db).
Proof.
  intros f rid u db Hf. cbn [update_participants room_participants].
  rewrite !map_map.
  split; apply map_ext; intros p;
    destruct ((rp_room_id p =? rid)%string && eq_user u (rp_user_id p));
    try reflexivity; apply Hf.
Qed.

Lemma sameFrame_refl : forall db, sameFrame db db.
Proof. intros db. repeat split. Qed.

Lemma sameFrame_participants : forall f rid u db,
  (forall p, rp_room_id (f p) = rp_room_id p /\ rp_user_id (f p) = rp_user_id p) ->
  sameFrame db (update_participants f rid u db).
Proof.
  intros f rid u db Hf.
  destruct (update_participants_keeps f rid u db Hf) as [H1 H2].
  repeat split; assumption.
Qed.

Lemma sameFrame_joinRoom : forall u rid pw db,
  sameFrame db (fst (joinRoom u rid pw db)).
Proof.
  intros u rid pw db. unfold joinRoom.
  destruct (single _) as [room|]; [|apply sameFrame_refl].
  destruct (match room_password room with Some _ => _ | None => _ end);
    [apply sameFrame_refl|].
  cbn [fst]. apply sameFrame_participants. intros p. now split.
Qed.

Lemma sameFrame_applyOp : forall db op, sameFrame db (applyOp db op).
Proof.
  intros db [now | u rid pw | card u st | u rid | u rid now | h rid uid
             | u note join]; cbn [applyOp].
  - rewrite cleanupExpiredRooms_closed. unfold sameFrame.
    cbn [rooms room_participants room_activity]. rewrite !map_map.
    repeat split; apply map_ext; intros r;
      now destruct (sweptIds now db (roomsToExpire now db) r).
  - apply sameFrame_joinRoom.
  - unfold handleJoin.
    destruct (negb (truthy_opt u)); [apply sameFrame_refl|].
    destruct (RoomStatus_eqb (card_status card) ended); [apply sameFrame_refl|].
    destruct (truthy_opt (card_password card)
              && negb (truthy (card_input_password st)));
      [apply sameFrame_refl|].
    pose proof (sameFrame_joinRoom u (card_id card)
                  (Some (card_input_password st)) db) as H.
    now destruct (joinRoom u (card_id card) (Some (card_input_password st)) db).
  - cbn [markAsBusy fst]. apply sameFrame_participants. intros p. now split.
  - unfold pageJoinRoom. destruct u as [uid|]; [|apply sameFrame_refl].
    destruct (single _); [|apply sameFrame_refl].
    destruct (update_rooms_keeps (set_room_status active) rid db) as (A & B & C & D);
      [intros x; now repeat split|].
    destruct (update_participants_keeps (set_rp_joined now) rid (Some uid)
                (update_rooms (set_room_status active) rid db)) as (E & F);
      [intros x; now split|].
    unfold sameFrame. cbn [update_participants rooms room_activity] in *.
    repeat split; assumption.
  - unfold handleKickParticipant. destruct (negb h); [apply sameFrame_refl|].
    cbn [fst]. apply sameFrame_participants. intros p. now split.
  - unfold handleRoomInvite.
    destruct (n_room_id note) as [rid|]; [|apply sameFrame_refl].
    destruct u as [uid|]; [|apply sameFrame_refl].
    destruct (negb (truthy rid) || negb (truthy uid)); [apply sameFrame_refl|].
    destruct (single _); [|apply sameFrame_refl].
    destruct join; cbn [fst]; apply sameFrame_participants; intros p; now split.
Qed.

(** X22.  Once a room exists, nothing refreshes it.  Through any
    sequence of sweeps, joins from the panel, the card, the page or an
    invitation, busy marks and kicks, the activity table (so every
    [last_active] and [participant_count]) stays as it was, no room row
    and no participant row is added or removed, and no room changes its
    id, creation time, password or host. *)
Theorem operations_keep_the_frame :
  forall (ops : list RoomOp) (db : DB),
    room_activity (fold_left applyOp ops db) = room_activity db
    /\ map room_id (rooms (fold_left applyOp ops db)) = map room_id (rooms db)
    /\ map room_created_at (rooms (fold_left applyOp ops db))
       = map room_created_at (rooms db)
    /\ map room_password (rooms (fold_left applyOp ops db))
       = map room_password (rooms db)
    /\ map room_host_id (rooms (fold_left applyOp ops db))
       = map room_host_id (rooms db)
    /\ map rp_room_id (room_participants (fold_left applyOp ops db))
       = map rp_room_id (room_participants db)
    /\ map rp_user_id (room_participants (fold_left applyOp ops db))
       = map rp_user_id (room_participants db).
Proof.
  intros ops. induction ops as [|op ops IH]; intros db; [now repeat split|].
  cbn [fold_left].
  destruct (IH (applyOp db op)) as (A & B & C & D & E & F & G).
  destruct (sameFrame_applyOp db op) as (A' & B' & C' & D' & E' & F' & G').
  repeat split; congruence.
Qed.

(** ** Skipping *)

(** X23.  A skip does not close the peer connection.  [skipPartner]
    clears the partner and leaves [peerConnectionRef] as it is, so a
    relayed message that arrives after the skip and before the next
    match still has its call made on that connection. *)
Theorem skip_keeps_the_connection :
  forall (b : Browser) (deviceId : string) (s : VideoChat) (m : Signal)
         (pc : RTCPeerConnection),
    peerConnectionRef s = Some pc ->
    partnerId (fst (skipPartner deviceId s)) = None
    /\ peerConnectionRef (fst (skipPartner deviceId s)) = Some pc
    /\ exists ok rest,
         callsOf (fst (onSignal b (fst (skipPartner deviceId s)) m))
         = Some (pc_calls pc ++ (firstCall m, ok) :: rest).
Proof.
  intros b d s m pc Hpc.
  assert (Hkeep : peerConnectionRef (fst (skipPartner d s)) = Some pc)
    by now rewrite skipPartner_keeps_connection.
  split; [reflexivity|]. split; [exact Hkeep|].
  destruct (onSignal_calls b (fst (skipPartner d s)) m pc Hkeep)
    as (ok & rest & H & _).
  now exists ok, rest.
Qed.

Lemma skip_keeps_the_connection_witness :
  partnerId afterSkip = None
  /\ exists ok rest,
       callsOf (fst (onSignal referenceBrowser afterSkip staleAnswer))
       = Some ([(CallAddTrack "audio", true); (CallAddTrack "video", true);
                (CallCreateOffer, true);
                (CallSetLocalDescription (mkSdp SdpOffer "v=0 o=offer"), true)]
               ++ (firstCall staleAnswer, ok) :: rest).
Proof.
  destruct (skip_keeps_the_connection referenceBrowser "default"
              (fst (handleMatchFound referenceBrowser (searching "abc") "xyz"))
              staleAnswer
              (mkPc "xyz"
                 [(CallAddTrack "audio", true); (CallAddTrack "video", true);
                  (CallCreateOffer, true);
                  (CallSetLocalDescription (mkSdp SdpOffer "v=0 o=offer"), true)])
              eq_refl) as (H1 & _ & H3).
  split; [exact H1 | exact H3].
Defined.
